(** * data-api-client: parameter annotation, request assembly, result
      hydration (index.js) and SQL escaping (pg-escape.ts)

    The JavaScript program is embedded shallowly: a datatype of the
    JavaScript values the program can observe, the handful of language
    primitives the sources use (typeof, truthiness, property access,
    Object.keys, Object.assign, Array.prototype.concat, String(...)), and on
    top of them one Rocq definition per source function, named as in the
    source.  A thrown exception is the [throw] case of [result]. *)

From Stdlib Require Import ZArith List String Ascii Bool Lia Permutation.
From Stdlib Require Import DecimalString Floats.SpecFloat.
Import ListNotations.
Local Open Scope string_scope.

(** ** Exceptions *)

(** [Error msg] is [throw Error(msg)], the only exception the sources raise
    themselves.  [TypeError] is the engine's exception for reading a
    property of null or undefined and for calling something that is not a
    function; its message is engine specific and not modelled. *)
Inductive exn : Type :=
| Error (msg : string)
| TypeError.

Inductive result (A : Type) : Type :=
| ok (a : A)
| throw (e : exn).
Arguments ok {A} a.
Arguments throw {A} e.

Definition bind {A B : Type} (m : result A) (f : A -> result B) : result B :=
  match m with
  | ok a => f a
  | throw e => throw e
  end.

Notation "x <- m ;; k" := (bind m (fun x => k))
  (at level 61, m at next level, right associativity).

(** [error] of index.js: [(...err) => { throw Error(...err) }]. *)
Definition error {A : Type} (msg : string) : result A := throw (Error msg).

(** ** Values *)

(** A JavaScript number is an IEEE 754 binary64 value; [spec_float] is the
    Standard Library's specification-level type of such values. *)
Definition number : Type := spec_float.

Definition NaN : number := S754_nan.
Definition Infinity : number := S754_infinity false.

(** The number whose value is the integer [z]. *)
Definition num_of_Z (z : Z) : number :=
  match z with
  | Z0 => S754_zero false
  | Zpos p => S754_finite false p 0
  | Zneg p => S754_finite true p 0
  end.

(** Values: the primitives, arrays, plain objects (own enumerable string
    keyed properties, listed in the order [Object.keys] enumerates them),
    Node.js Buffers and functions (represented by their source text, which is
    what [String(f)] returns).  Prototype chains, getters, symbols and array
    holes are outside the model. *)
Unset Elimination Schemes.
Inductive jsval : Type :=
| JUndefined
| JNull
| JBool (b : bool)
| JNum (n : number)
| JStr (s : string)
| JArr (elems : list jsval)
| JObj (props : list (string * jsval))
| JBuffer (bytes : list ascii)
| JFunc (src : string).
Set Elimination Schemes.

Definition props : Type := list (string * jsval).

(** The double quote character and the one-character strings the escaper
    handles. *)
Definition dquote_char : ascii := "034"%char.
Definition squote_char : ascii := "039"%char.
Definition backslash_char : ascii := "092"%char.
Definition str1 (c : ascii) : string := String c EmptyString.

(** *** typeof, truthiness, Array.isArray, Buffer.isBuffer *)

Definition typeof (v : jsval) : string :=
  match v with
  | JUndefined => "undefined"
  | JNull => "object"
  | JBool _ => "boolean"
  | JNum _ => "number"
  | JStr _ => "string"
  | JArr _ => "object"
  | JObj _ => "object"
  | JBuffer _ => "object"
  | JFunc _ => "function"
  end.

(** ToBoolean: undefined, null, false, NaN, +0, -0 and the empty string are
    falsy, every other value is truthy. *)
Definition truthy (v : jsval) : bool :=
  match v with
  | JUndefined | JNull => false
  | JBool b => b
  | JNum S754_nan | JNum (S754_zero _) => false
  | JNum _ => true
  | JStr EmptyString => false
  | JStr _ => true
  | JArr _ | JObj _ | JBuffer _ | JFunc _ => true
  end.

Definition isArray (v : jsval) : bool :=
  match v with JArr _ => true | _ => false end.

Definition isBuffer (v : jsval) : bool :=
  match v with JBuffer _ => true | _ => false end.

(** [v === true] and [v === null]. *)
Definition is_true (v : jsval) : bool :=
  match v with JBool true => true | _ => false end.

Definition is_null (v : jsval) : bool :=
  match v with JNull => true | _ => false end.

(** [v == null]: null or undefined. *)
Definition is_nullish (v : jsval) : bool :=
  match v with JUndefined | JNull => true | _ => false end.

(** *** Property keys *)

Definition string_of_nat (n : nat) : string :=
  NilZero.string_of_uint (Nat.to_uint n).

(** An array index is the canonical decimal string of an integer below
    2^32 - 1.  Own keys that are array indices are enumerated first, in
    ascending order, before the other keys in insertion order. *)
Definition array_index (k : string) : option nat :=
  match NilZero.uint_of_string k with
  | Some u =>
      let n := N.of_uint u in
      if (String.eqb (NilZero.string_of_uint (N.to_uint n)) k
          && (n <? 4294967295)%N)%bool
      then Some (N.to_nat n) else None
  | None => None
  end.

Fixpoint lookup (k : string) (o : props) : option jsval :=
  match o with
  | [] => None
  | (k', v) :: o' => if String.eqb k k' then Some v else lookup k o'
  end.

Fixpoint replace (k : string) (v : jsval) (o : props) : props :=
  match o with
  | [] => []
  | (k', v') :: o' =>
      if String.eqb k k' then (k, v) :: o' else (k', v') :: replace k v o'
  end.

(** Where a new key goes: an array index before the first key that is not an
    index or is a larger index; any other key at the end. *)
Fixpoint insert_index (i : nat) (k : string) (v : jsval) (o : props) : props :=
  match o with
  | [] => [(k, v)]
  | (k', v') :: o' =>
      match array_index k' with
      | Some j =>
          if Nat.ltb i j then (k, v) :: o
          else (k', v') :: insert_index i k v o'
      | None => (k, v) :: o
      end
  end.

(** [o[k] = v] on a plain object, for a key other than [__proto__]: that
    key is intercepted by the setter of [Object.prototype] and makes no
    property.  The sources write fixed keys, type tags and column labels;
    the properties below that let the caller choose the key exclude
    [__proto__] by hypothesis. *)
Definition set_prop (k : string) (v : jsval) (o : props) : props :=
  match lookup k o with
  | Some _ => replace k v o
  | None =>
      match array_index k with
      | Some i => insert_index i k v o
      | None => (o ++ [(k, v)])%list
      end
  end.

(** [Object.assign(target, source)] for plain objects: every own property of
    [source] is written to [target], in key order. *)
Definition assign (target source : props) : props :=
  fold_left (fun t kv => set_prop (fst kv) (snd kv) t) source target.

(** The object literal [{ k1: v1, ..., kn: vn }]. *)
Definition obj_lit (kvs : props) : props := assign [] kvs.

Definition indices (n : nat) : list string := map string_of_nat (seq 0 n).

Fixpoint string_chars (s : string) : list ascii :=
  match s with
  | EmptyString => []
  | String c s' => c :: string_chars s'
  end.

(** [Object.keys(v)]: throws on null and undefined; the indices of a string,
    an array or a Buffer; the own keys of an object; nothing for the other
    primitives and for functions. *)
Definition keys (v : jsval) : result (list string) :=
  match v with
  | JUndefined | JNull => throw TypeError
  | JBool _ | JNum _ | JFunc _ => ok []
  | JStr s => ok (indices (String.length s))
  | JArr l => ok (indices (List.length l))
  | JBuffer b => ok (indices (List.length b))
  | JObj o => ok (map fst o)
  end.

Definition num_of_nat (n : nat) : number := num_of_Z (Z.of_nat n).

Definition opt_val (o : option jsval) : jsval :=
  match o with Some v => v | None => JUndefined end.

(** [v[k]] for a string key: throws on null and undefined; [length] and the
    indices of strings, arrays and Buffers; the own properties of objects;
    undefined otherwise.  The properties an object inherits from
    [Object.prototype] ([toString], [constructor], ...) are not modelled: the
    keys the sources read by name are not among them, and the properties
    below that read a key taken from the data exclude them by hypothesis. *)
Definition get (v : jsval) (k : string) : result jsval :=
  match v with
  | JUndefined | JNull => throw TypeError
  | JBool _ | JNum _ | JFunc _ => ok JUndefined
  | JStr s =>
      if String.eqb k "length" then ok (JNum (num_of_nat (String.length s)))
      else match array_index k with
           | Some i => ok (match nth_error (string_chars s) i with
                           | Some c => JStr (str1 c)
                           | None => JUndefined
                           end)
           | None => ok JUndefined
           end
  | JArr l =>
      if String.eqb k "length" then ok (JNum (num_of_nat (List.length l)))
      else match array_index k with
           | Some i => ok (opt_val (nth_error l i))
           | None => ok JUndefined
           end
  | JBuffer b =>
      if String.eqb k "length" then ok (JNum (num_of_nat (List.length b)))
      else match array_index k with
           | Some i => ok (match nth_error b i with
                           | Some c => JNum (num_of_nat (nat_of_ascii c))
                           | None => JUndefined
                           end)
           | None => ok JUndefined
           end
  | JObj o => ok (opt_val (lookup k o))
  end.

(** [v[i]] for a number [i] that is a natural number. *)
Definition get_idx (v : jsval) (i : nat) : result jsval :=
  get v (string_of_nat i).

(** *** String primitives *)

(** [s.indexOf(pat)]: the first position of [pat] in [s], or -1. *)
Definition indexOf (s pat : string) : Z :=
  match String.index 0 pat s with
  | Some n => Z.of_nat n
  | None => (-1)%Z
  end.

(** [s.replace(/c/g, by)] for a one-character pattern [c]: every occurrence
    of [c], left to right, is replaced by [by]. *)
Fixpoint replace_all (c : ascii) (by_ : string) (s : string) : string :=
  match s with
  | EmptyString => EmptyString
  | String a s' =>
      if Ascii.eqb a c then by_ ++ replace_all c by_ s'
      else String a (replace_all c by_ s')
  end.

Definition in_range (lo hi c : ascii) : bool :=
  (N_of_ascii lo <=? N_of_ascii c)%N && (N_of_ascii c <=? N_of_ascii hi)%N.

Definition shift_char (c : ascii) (d : Z) : ascii :=
  ascii_of_N (Z.to_N (Z.of_N (N_of_ascii c) + d)).

(** Strings are sequences of code units; the model has the code units below
    256.  [toLowerCase] and [toUpperCase] on them: the ASCII letters and the
    accented letters of the upper half whose counterpart is again below
    256. *)
Definition lower_char (c : ascii) : ascii :=
  if in_range "A" "Z" c then shift_char c 32
  else if in_range "192" "222" c && negb (Ascii.eqb c "215")
       then shift_char c 32
  else c.

Definition upper_char (c : ascii) : ascii :=
  if in_range "a" "z" c then shift_char c (-32)
  else if in_range "224" "254" c && negb (Ascii.eqb c "247")
       then shift_char c (-32)
  else c.

Fixpoint toLowerCase (s : string) : string :=
  match s with
  | EmptyString => EmptyString
  | String c s' => String (lower_char c) (toLowerCase s')
  end.

(** *** Regular expressions of the shape [^[first][rest]*$] *)

(** A character class is a list of inclusive ranges.  With the [i] flag (and
    no [u] flag) a character matches a class when its canonical form, its
    upper case, is the canonical form of a member of the class. *)
Definition char_class : Type := list (ascii * ascii).

Record regex : Type := {
  first_class : char_class;
  rest_class : char_class;
  ignoreCase : bool
}.

Definition in_class (cls : char_class) (c : ascii) : bool :=
  existsb (fun r => in_range (fst r) (snd r) c) cls.

Definition canonicalize (i : bool) (c : ascii) : ascii :=
  if i then upper_char c else c.

Definition code_units : list ascii := map ascii_of_nat (seq 0 256).

Definition class_matches (i : bool) (cls : char_class) (c : ascii) : bool :=
  existsb (fun m => in_class cls m
                    && Ascii.eqb (canonicalize i m) (canonicalize i c))
          code_units.

Fixpoint all_match (i : bool) (cls : char_class) (s : string) : bool :=
  match s with
  | EmptyString => true
  | String c s' => class_matches i cls c && all_match i cls s'
  end.

(** [re.test(s)]: both anchors are present and there is no [m] flag, so the
    whole of [s] has to match. *)
Definition regex_test (re : regex) (s : string) : bool :=
  match s with
  | EmptyString => false
  | String c s' =>
      class_matches (ignoreCase re) (first_class re) c
      && all_match (ignoreCase re) (rest_class re) s'
  end.

(** ** pg-escape.ts *)

(** [POSTGRES_RESERVED_WORDS]: the elements of the Set, in source order. *)
Definition POSTGRES_RESERVED_WORDS : list string :=
  [ "aes128"; "aes256"; "all"; "allowoverwrite"; "analyse"; "analyze"; "and";
    "any"; "array"; "as"; "asc"; "authorization"; "backup"; "between";
    "binary"; "blanksasnull"; "both"; "bytedict"; "case"; "cast"; "check";
    "collate"; "column"; "constraint"; "create"; "credentials"; "cross";
    "current_date"; "current_time"; "current_timestamp"; "current_user";
    "current_user_id"; "default"; "deferrable"; "deflate"; "defrag"; "delta";
    "delta32k"; "desc"; "disable"; "distinct"; "do"; "else"; "emptyasnull";
    "enable"; "encode"; "encrypt"; "encryption"; "end"; "except"; "explicit";
    "false"; "for"; "foreign"; "freeze"; "from"; "full"; "globaldict256";
    "globaldict64k"; "grant"; "group"; "gzip"; "having"; "identity";
    "ignore"; "ilike"; "in"; "initially"; "inner"; "intersect"; "into"; "is";
    "isnull"; "join"; "leading"; "left"; "like"; "limit"; "localtime";
    "localtimestamp"; "lun"; "luns"; "lzo"; "lzop"; "minus"; "mostly13";
    "mostly32"; "mostly8"; "natural"; "new"; "not"; "notnull"; "null";
    "nulls"; "off"; "offline"; "offset"; "old"; "on"; "only"; "open"; "or";
    "order"; "outer"; "overlaps"; "parallel"; "partition"; "percent";
    "placing"; "primary"; "raw"; "readratio"; "recover"; "references";
    "rejectlog"; "resort"; "restore"; "right"; "select"; "session_user";
    "similar"; "some"; "sysdate"; "system"; "table"; "tag"; "tdes";
    "text255"; "text32k"; "then"; "to"; "top"; "trailing"; "true";
    "truncatecolumns"; "union"; "unique"; "user"; "using"; "verbose";
    "wallet"; "when"; "where"; "with"; "without" ].

(** [set.has(x)]. *)
Definition has (set : list string) (x : string) : bool :=
  existsb (String.eqb x) set.

(** The literal [/^[a-z_][a-z0-9_$]*$/i]. *)
Definition identifier_pattern : regex :=
  {| first_class := [("a", "z"); ("_", "_")];
     rest_class := [("a", "z"); ("0", "9"); ("_", "_"); ("$", "$")];
     ignoreCase := true |}%char.

Definition isValidIdentifier (id : string) : bool :=
  if has POSTGRES_RESERVED_WORDS (toLowerCase id) then false
  else regex_test identifier_pattern id.

Definition quoteIdentifier (id : string) : string :=
  let escaped := replace_all dquote_char (str1 dquote_char ++ str1 dquote_char) id in
  str1 dquote_char ++ escaped ++ str1 dquote_char.

(** [ident(val)].  The declared parameter type is [string]; the guard for
    null and undefined comes first, and any other value that is not a string
    has no [toLowerCase] method, so that the call in [isValidIdentifier]
    throws a TypeError. *)
Definition ident (val : jsval) : result string :=
  if is_nullish val then throw (Error "identifier required")
  else match val with
       | JStr s => ok (if isValidIdentifier s then s else quoteIdentifier s)
       | _ => throw TypeError
       end.

(** ** String(...) and [literal] *)

Section Host.

Set Default Proof Using "Type".

(** Two conversions of the host are parameters of the development:
    Number::toString (the shortest decimal text that reads back as the same
    binary64 value) and Buffer.prototype.toString (UTF-8 decoding). *)
Variable numberToString : number -> string.
Variable bufferToString : list ascii -> string.

(** [String(v)], which is also the conversion of a computed property key.
    An array is its elements joined by commas, null and undefined elements
    giving the empty text; a plain object is ["[object Object]"]. *)
Fixpoint toString (v : jsval) : string :=
  match v with
  | JUndefined => "undefined"
  | JNull => "null"
  | JBool true => "true"
  | JBool false => "false"
  | JNum n => numberToString n
  | JStr s => s
  | JArr l =>
      String.concat ","
        (map (fun e => if is_nullish e then EmptyString else toString e) l)
  | JObj _ => "[object Object]"
  | JBuffer b => bufferToString b
  | JFunc src => src
  end.

(** [literal(val)] of pg-escape.ts. *)
Fixpoint literal (val : jsval) : string :=
  if is_nullish val then "NULL"
  else match val with
       | JArr l =>
           let escapedValues := map literal l in
           "(" ++ String.concat ", " escapedValues ++ ")"
       | _ =>
           let str := toString val in
           let hasBackslash := negb (indexOf str (str1 backslash_char) =? -1)%Z in
           let prefix := if hasBackslash then "E" else EmptyString in
           let escaped :=
             replace_all squote_char (str1 squote_char ++ str1 squote_char) str in
           let escaped :=
             if hasBackslash
             then replace_all backslash_char
                    (str1 backslash_char ++ str1 backslash_char) escaped
             else escaped in
           prefix ++ str1 squote_char ++ escaped ++ str1 squote_char
       end.

(** ** index.js: parameter annotation *)

(** [arr.reduce(f, init)] with the callback receiving the accumulator, the
    element and its position; an exception in the callback ends the loop. *)
Definition reduce_from {A E : Type} (f : A -> E -> nat -> result A)
  : list E -> nat -> A -> result A :=
  fix go (l : list E) (i : nat) (acc : A) : result A :=
    match l with
    | [] => ok acc
    | x :: l' => acc' <- f acc x i ;; go l' (S i) acc'
    end.

Definition reduce {A E : Type} (f : A -> E -> nat -> result A)
  (l : list E) (init : A) : result A :=
  reduce_from f l 0 init.

(** [acc.concat(x)]: the elements of [x] when it is an array, [x] itself
    otherwise. *)
Definition concat (acc : list jsval) (x : jsval) : list jsval :=
  match x with
  | JArr l => (acc ++ l)%list
  | _ => (acc ++ [x])%list
  end.

(** The value [m * 2^e] of a finite number is an integer. *)
Definition integral (m : positive) (e : Z) : bool :=
  ((0 <=? e) || (Zpos m mod 2 ^ (- e) =? 0))%Z.

(** The integer part of the magnitude [m * 2^e]. *)
Definition magnitude (m : positive) (e : Z) : Z :=
  (if 0 <=? e then Zpos m * 2 ^ e else Zpos m / 2 ^ (- e))%Z.

(** [parseInt(val) === val].  [parseInt] reads the leading decimal digits of
    [String(val)]; Number::toString writes an integer below 10^21 in
    magnitude as its digits, a fraction with a decimal point and anything
    from 10^21 on in exponent notation.  So the test holds exactly for the
    integral numbers below 10^21 in magnitude (both zeros included) and fails
    for every value that is not a number. *)
Definition parseInt_same (val : jsval) : bool :=
  match val with
  | JNum (S754_zero _) => true
  | JNum (S754_finite _ m e) =>
      integral m e && (magnitude m e <? 10 ^ 21)%Z
  | _ => false
  end.

(** [parseFloat(val) === val]: Number::toString followed by [parseFloat]
    gives the number back, infinities included; NaN is not equal to
    itself. *)
Definition parseFloat_same (val : jsval) : bool :=
  match val with
  | JNum S754_nan => false
  | JNum _ => true
  | _ => false
  end.

(** [getType]; [None] is the undefined of the last branch. *)
Definition getType (val : jsval) : option string :=
  if String.eqb (typeof val) "string" then Some "stringValue"
  else if String.eqb (typeof val) "boolean" then Some "booleanValue"
  else if String.eqb (typeof val) "number" && parseInt_same val
       then Some "longValue"
  else if String.eqb (typeof val) "number" && parseFloat_same val
       then Some "doubleValue"
  else if is_null val then Some "isNull"
  else if isBuffer val then Some "blobValue"
  else None.

Definition invalid_type_message (name : string) : string :=
  str1 squote_char ++ name ++ str1 squote_char ++ str1 squote_char
  ++ " is an invalid type".

(** [formatType]: the computed key is [type] when it is truthy. *)
Definition formatType (name : string) (value : jsval) (type : option string)
  : result jsval :=
  key <- match type with
         | Some t => if truthy (JStr t) then ok t
                     else error (invalid_type_message name)
         | None => error (invalid_type_message name)
         end ;;
  ok (JObj (obj_lit [("name", JStr name);
                     ("value", JObj (obj_lit [(key, value)]))])).

Definition formatParams (p : jsval) : result jsval :=
  ks <- keys p ;;
  arr <- reduce (fun arr x _ =>
                   px <- get p x ;;
                   e <- formatType x px (getType px) ;;
                   ok (concat arr e)) ks [] ;;
  ok (JArr arr).

(** [a && b] on conditions that may throw: [b] is evaluated only when [a]
    holds. *)
Definition and_then (a b : result bool) : result bool :=
  x <- a ;; if x then b else ok false.

Definition prop_truthy (p : jsval) (k : string) : result bool :=
  v <- get p k ;; ok (truthy v).

(** [annotateParams]: [params.reduce] exists on arrays only. *)
Fixpoint annotateParams (params : jsval) : result jsval :=
  match params with
  | JArr l =>
      acc <- reduce (fun acc p _ =>
                if isArray p then
                  inner <- annotateParams p ;;
                  ok (concat acc (JArr [inner]))
                else
                  pre <- and_then
                           (ks <- keys p ;; ok (Nat.eqb (List.length ks) 2))
                           (and_then (prop_truthy p "name")
                                     (prop_truthy p "value")) ;;
                  if pre then ok (concat acc p)
                  else fp <- formatParams p ;; ok (concat acc fp)) l [] ;;
      ok (JArr acc)
  | _ => throw TypeError
  end.

(** ** index.js: result hydration *)

(** The hydration field map [fmap] is an array of objects with an optional
    [label] and, once discovered, a [field]; [fmap[i]] is undefined past the
    length of the first record, and reading a property of it throws. *)
Definition fmap_at (fmap : list props) (i : nat) : result props :=
  match nth_error fmap i with
  | Some fm => ok fm
  | None => throw TypeError
  end.

Fixpoint update_at (fmap : list props) (i : nat) (fm : props) : list props :=
  match fmap, i with
  | [], _ => []
  | _ :: rest, O => fm :: rest
  | x :: rest, S j => x :: update_at rest j fm
  end.

Definition prop (fm : props) (k : string) : jsval := opt_val (lookup k fm).

(** [columns ? Object.assign(acc, { [fmap[i].label]: v }) : acc.concat(v)]
    where the accumulator started as [columns ? {} : []].  Every exception
    of the hydrator's loop body is a TypeError, so the order in which the
    label and the value are read does not show. *)
Definition emit (columns : jsval) (fmap : list props) (i : nat)
  (acc v : jsval) : result jsval :=
  if truthy columns then
    fm <- fmap_at fmap i ;;
    match acc with
    | JObj o => ok (JObj (assign o (obj_lit [(toString (prop fm "label"), v)])))
    | _ => throw TypeError
    end
  else
    match acc with
    | JArr l => ok (JArr (concat l v))
    | _ => throw TypeError
    end.

(** [field[fmap[i].field]]. *)
Definition mapped_value (fmap : list props) (i : nat) (field : jsval)
  : result jsval :=
  fm <- fmap_at fmap i ;;
  get field (toString (prop fm "field")).

(** The loop [Object.keys(field).map(type => ...)] of the discovery branch:
    every key other than [isNull] whose value is not null is written to
    [fmap[i].field], a later key overwriting an earlier one. *)
Definition discover (fmap : list props) (i : nat) (field : jsval)
  : result (list props) :=
  ks <- keys field ;;
  reduce (fun fmap type _ =>
            v <- get field type ;;
            if negb (String.eqb type "isNull") && negb (is_null v) then
              fm <- fmap_at fmap i ;;
              ok (update_at fmap i (set_prop "field" (JStr type) fm))
            else ok fmap) ks fmap.

(** The body of the callback of [rec.reduce]; the field map is threaded
    through as state next to the accumulator. *)
Definition formatField (columns : jsval) (st : list props * jsval)
  (field : jsval) (i : nat) : result (list props * jsval) :=
  let (fmap, acc) := st in
  isNull <- get field "isNull" ;;
  if is_true isNull then
    acc' <- emit columns fmap i acc JNull ;;
    ok (fmap, acc')
  else if match nth_error fmap i with
          | Some fm => truthy (prop fm "field")
          | None => false
          end
  then
    v <- mapped_value fmap i field ;;
    acc' <- emit columns fmap i acc v ;;
    ok (fmap, acc')
  else
    fmap' <- discover fmap i field ;;
    v <- mapped_value fmap' i field ;;
    acc' <- emit columns fmap' i acc v ;;
    ok (fmap', acc').

(** [rec.reduce(...)] for one record. *)
Definition formatRecord (columns : jsval) (fmap : list props) (rec : jsval)
  : result (list props * jsval) :=
  match rec with
  | JArr fields =>
      reduce (formatField columns) fields
             (fmap, if truthy columns then JObj [] else JArr [])
  | _ => throw TypeError
  end.

(** [recs[0].map((x,i) => Object.assign({}, columns ? { label:
    columns[i].label } : {}))]. *)
Definition init_fmap (columns first : jsval) : result (list props) :=
  match first with
  | JArr xs =>
      reduce (fun fmap _ i =>
                entry <- (if truthy columns then
                            ci <- get_idx columns i ;;
                            l <- get ci "label" ;;
                            ok (obj_lit [("label", l)])
                          else ok []) ;;
                ok (fmap ++ [assign [] entry])%list) xs []
  | _ => throw TypeError
  end.

Definition formatRecords (recs columns : jsval) : result jsval :=
  first <- get_idx recs 0 ;;
  fmap <- init_fmap columns first ;;
  match recs with
  | JArr rs =>
      out <- reduce (fun st rec _ =>
                       r <- formatRecord columns (fst st) rec ;;
                       ok (fst r, (snd st ++ [snd r])%list)) rs (fmap, []) ;;
      ok (JArr (snd out))
  | _ => throw TypeError
  end.

(** [formatResults]: destructuring the response throws on null and
    undefined. *)
Definition formatResults (response : jsval) (hydrate includeMeta : bool)
  : result jsval :=
  columnMetadata <- get response "columnMetadata" ;;
  numberOfRecordsUpdated <- get response "numberOfRecordsUpdated" ;;
  records <- get response "records" ;;
  let target :=
    if includeMeta then obj_lit [("columnMetadata", columnMetadata)] else [] in
  recs <- formatRecords records
            (if hydrate then columnMetadata else JBool false) ;;
  ok (JObj (assign target
              (obj_lit [("numberOfRecordsUpdated", numberOfRecordsUpdated);
                        ("records", recs)]))).

(** ** index.js: request assembly *)

(** The remote execution surface: [x(params).promise()], awaited, either
    yields the response or throws the transport's error. *)
Record RDSDataService : Type := {
  executeStatement : jsval -> result jsval;
  batchExecuteStatement : jsval -> result jsval
}.

(** The [config] object; [database] is a string or null. *)
Record Config : Type := {
  secretArn : string;
  resourceArn : string;
  database : option string;
  hydrateColumnNames : bool;
  RDS : RDSDataService
}.

Definition nullable (d : option string) : jsval :=
  match d with Some s => JStr s | None => JNull end.

(** [args[i]] of a rest parameter. *)
Definition arg (args : list jsval) (i : nat) : jsval := nth i args JUndefined.

Definition parseSQL (args : list jsval) : result jsval :=
  if String.eqb (typeof (arg args 0)) "string" then ok (arg args 0)
  else
    isObj <- and_then (ok (String.eqb (typeof (arg args 0)) "object"))
               (sql <- get (arg args 0) "sql" ;;
                ok (String.eqb (typeof sql) "string")) ;;
    if isObj then get (arg args 0) "sql"
    else error "No 'sql' statement provided.".

Definition parseParams (args : list jsval) : result jsval :=
  parameters <- get (arg args 0) "parameters" ;;
  if isArray parameters then ok parameters
  else if String.eqb (typeof parameters) "object" then ok (JArr [parameters])
  else if isArray (arg args 1) then ok (arg args 1)
  else if String.eqb (typeof (arg args 1)) "object" then ok (JArr [arg args 1])
  else if truthy parameters then error "'parameters' must be an object or array"
  else if truthy (arg args 1) then error "Parameters must be an object or array"
  else ok (JArr []).

Definition parseDatabase (config : Config) (args : list jsval) : result jsval :=
  db <- get (arg args 0) "database" ;;
  if String.eqb (typeof db) "string" then ok db
  else if truthy db then error "'database' must be a string."
  else if truthy (nullable (database config)) then ok (nullable (database config))
  else error "No 'database' provided.".

Definition parseHydrate (config : Config) (args : list jsval) : result bool :=
  h <- get (arg args 0) "hydrateColumnNames" ;;
  if String.eqb (typeof h) "boolean" then ok (is_true h)
  else if truthy h then error "'hydrateColumnNames' must be a boolean."
  else ok (hydrateColumnNames config).

(** [values.includes(x)]. *)
Definition includes (values : list string) (x : string) : bool :=
  existsb (String.eqb x) values.

Definition omit (obj : jsval) (values : list string) : result props :=
  ks <- keys obj ;;
  reduce (fun acc x _ =>
            if includes values x then ok acc
            else v <- get obj x ;; ok (assign acc (obj_lit [(x, v)]))) ks [].

Definition prepareParams (config : Config) (args : list jsval) : result props :=
  inputs <- (if String.eqb (typeof (arg args 0)) "object"
             then omit (arg args 0) ["hydrateColumnNames"]
             else ok []) ;;
  ok (assign (obj_lit [("secretArn", JStr (secretArn config));
                       ("resourceArn", JStr (resourceArn config))])
             inputs).

Definition elems (v : jsval) : list jsval :=
  match v with JArr l => l | _ => [] end.

(** [parameters.length > 0 && Array.isArray(parameters[0]) ? true : false]. *)
Definition isBatch (parameters : jsval) : bool :=
  if Nat.ltb 0 (List.length (elems parameters))
     && isArray (nth 0 (elems parameters) JUndefined)
  then true else false.

(** What [query] has computed when it reaches the remote call. *)
Record Request : Type := {
  req_hydrate : bool;
  req_isBatch : bool;
  req_params : props
}.

(** [query] up to the remote call, in the source's evaluation order. *)
Definition buildRequest (config : Config) (args : list jsval) : result Request :=
  sql <- parseSQL args ;;
  hydrate <- parseHydrate config args ;;
  raw <- parseParams args ;;
  parameters <- annotateParams raw ;;
  let batch := isBatch parameters in
  target <- prepareParams config args ;;
  db <- parseDatabase config args ;;
  let params :=
    assign
      (assign
         (assign target (obj_lit [("database", db); ("sql", sql)]))
         (if Nat.ltb 0 (List.length (elems parameters))
          then obj_lit [(if batch then "parameterSets" else "parameters",
                         parameters)]
          else []))
      (if hydrate && negb batch
       then obj_lit [("includeResultMetadata", JBool true)]
       else []) in
  ok {| req_hydrate := hydrate; req_isBatch := batch; req_params := params |}.

(** [query]: the remote call and the hydration of its response. *)
Definition query (config : Config) (args : list jsval) : result jsval :=
  req <- buildRequest config args ;;
  response <- (if req_isBatch req
               then batchExecuteStatement (RDS config) (JObj (req_params req))
               else executeStatement (RDS config) (JObj (req_params req))) ;;
  includeMeta <- get (arg args 0) "includeResultMetadata" ;;
  formatResults response (req_hydrate req)
    (if is_true includeMeta then true else false).

(** ** index.js: instantiation *)

(** [new AWS.RDSDataService(options)] is the external collaborator. *)
Variable newRDSDataService : jsval -> RDSDataService.

Definition is_undefined (v : jsval) : bool :=
  match v with JUndefined => true | _ => false end.

Definition as_string (v : jsval) : option string :=
  match v with JStr s => Some s | _ => None end.

(** [module.exports = (params) => ...]: the configuration the returned
    methods close over; its [query] method is [query config]. *)
Definition module_exports (params : jsval) : result Config :=
  o <- get params "options" ;;
  options <- (if String.eqb (typeof o) "object" then ok o
              else if negb (is_undefined o) then error "'options' must be an object"
              else ok (JObj [])) ;;
  s <- get params "secretArn" ;;
  secretArn <- (match as_string s with
                | Some x => ok x
                | None => error "'secretArn' string value required"
                end) ;;
  r <- get params "resourceArn" ;;
  resourceArn <- (match as_string r with
                  | Some x => ok x
                  | None => error "'resourceArn' string value required"
                  end) ;;
  d <- get params "database" ;;
  database <- (match as_string d with
               | Some x => ok (Some x)
               | None => if negb (is_undefined d)
                         then error "'database' must be a string"
                         else ok None
               end) ;;
  h <- get params "hydrateColumnNames" ;;
  ok {| secretArn := secretArn;
        resourceArn := resourceArn;
        database := database;
        hydrateColumnNames :=
          if String.eqb (typeof h) "boolean" then false else true;
        RDS := newRDSDataService options |}.

(** * Properties *)

(** ** Objects *)

(** Case analysis on every comparison of keys in the goal. *)
Ltac key_cases :=
  repeat match goal with
         | |- context [String.eqb ?a ?b] =>
             destruct (String.eqb_spec a b); subst
         end;
  try congruence; try reflexivity.

Lemma set_prop_nil (k : string) (v : jsval) : set_prop k v [] = [(k, v)].
Proof.
  unfold set_prop. simpl. destruct (array_index k); reflexivity.
Qed.

Lemma obj_lit_single (k : string) (v : jsval) : obj_lit [(k, v)] = [(k, v)].
Proof. unfold obj_lit, assign. simpl. apply set_prop_nil. Qed.

Lemma assign_single (o : props) (k : string) (v : jsval) :
  assign o (obj_lit [(k, v)]) = set_prop k v o.
Proof. rewrite obj_lit_single. reflexivity. Qed.

Lemma NoDup_keys_single (k : string) (v : jsval) : NoDup (map fst [(k, v)]).
Proof. constructor; [intros []|constructor]. Qed.

Lemma lookup_None_notin (k : string) (o : props) :
  lookup k o = None -> ~ In k (map fst o).
Proof.
  induction o as [|[k' v'] o IH]; simpl; [intros _ []|].
  destruct (String.eqb_spec k k') as [->|Hne]; [discriminate|].
  intros H [Heq|Hin]; [congruence|]. exact (IH H Hin).
Qed.

Lemma lookup_replace (k k' : string) (v : jsval) (o : props) :
  lookup k' (replace k v o)
  = if String.eqb k' k then option_map (fun _ => v) (lookup k o)
    else lookup k' o.
Proof.
  induction o as [|[k0 v0] o IH]; cbn [replace lookup option_map].
  - destruct (String.eqb k' k); reflexivity.
  - destruct (String.eqb_spec k k0) as [<-|Hne]; cbn [lookup].
    + key_cases.
    + rewrite IH. key_cases.
Qed.

Lemma lookup_insert_index (i : nat) (k k' : string) (v : jsval) (o : props) :
  lookup k o = None ->
  lookup k' (insert_index i k v o)
  = if String.eqb k' k then Some v else lookup k' o.
Proof.
  induction o as [|[k0 v0] o IH]; intros Hk.
  - reflexivity.
  - cbn [lookup] in Hk.
    destruct (String.eqb_spec k k0) as [->|Hne]; [discriminate|].
    cbn [insert_index].
    destruct (array_index k0) as [j|]; [destruct (Nat.ltb i j)|];
      cbn [lookup]; try reflexivity.
    rewrite (IH Hk). key_cases.
Qed.

Lemma lookup_snoc (k k' : string) (v : jsval) (o : props) :
  lookup k o = None ->
  lookup k' (o ++ [(k, v)])%list
  = if String.eqb k' k then Some v else lookup k' o.
Proof.
  induction o as [|[k0 v0] o IH]; intros Hk; [reflexivity|].
  cbn [lookup] in Hk.
  destruct (String.eqb_spec k k0) as [->|Hne]; [discriminate|].
  cbn [app lookup]. rewrite (IH Hk). key_cases.
Qed.

(** Reading back what was written, and the other keys being untouched. *)
Lemma lookup_set_prop (k k' : string) (v : jsval) (o : props) :
  lookup k' (set_prop k v o)
  = if String.eqb k' k then Some v else lookup k' o.
Proof.
  unfold set_prop. destruct (lookup k o) eqn:Hk.
  - rewrite lookup_replace, Hk. reflexivity.
  - destruct (array_index k).
    + apply lookup_insert_index. exact Hk.
    + apply lookup_snoc. exact Hk.
Qed.

Lemma keys_replace (k : string) (v : jsval) (o : props) :
  map fst (replace k v o) = map fst o.
Proof.
  induction o as [|[k0 v0] o IH]; simpl; [reflexivity|].
  destruct (String.eqb_spec k k0) as [->|Hne]; simpl; [reflexivity|].
  rewrite IH. reflexivity.
Qed.

Lemma keys_insert_index (i : nat) (k : string) (v : jsval) (o : props) :
  Permutation (k :: map fst o) (map fst (insert_index i k v o)).
Proof.
  induction o as [|[k0 v0] o IH]; simpl; [reflexivity|].
  destruct (array_index k0) as [j|]; [destruct (Nat.ltb i j)|];
    simpl; try reflexivity.
  rewrite perm_swap. apply perm_skip. exact IH.
Qed.

(** Writing a property keeps the keys of an object distinct. *)
Lemma NoDup_set_prop (k : string) (v : jsval) (o : props) :
  NoDup (map fst o) -> NoDup (map fst (set_prop k v o)).
Proof.
  intros Hnd. unfold set_prop. destruct (lookup k o) eqn:Hk.
  - rewrite keys_replace. exact Hnd.
  - apply lookup_None_notin in Hk.
    assert (Hk' : NoDup (k :: map fst o)) by (constructor; assumption).
    destruct (array_index k).
    + exact (Permutation_NoDup (keys_insert_index _ _ _ _) Hk').
    + rewrite map_app. simpl.
      exact (Permutation_NoDup (Permutation_cons_append _ _) Hk').
Qed.

(** [Object.assign] from a source with distinct keys: the source's value
    where it has the key, the target's otherwise. *)
Lemma lookup_assign (k : string) (target source : props) :
  NoDup (map fst source) ->
  lookup k (assign target source)
  = match lookup k source with
    | Some v => Some v
    | None => lookup k target
    end.
Proof.
  unfold assign. revert target.
  induction source as [|[k0 v0] source IH]; intros target Hnd; [reflexivity|].
  inversion Hnd as [|? ? Hni Hnd']; subst.
  cbn [fold_left fst snd lookup]. rewrite (IH _ Hnd'), lookup_set_prop.
  destruct (String.eqb_spec k k0) as [->|Hne]; [|reflexivity].
  destruct (lookup k0 source) eqn:Hl; [|reflexivity].
  exfalso. apply Hni. clear - Hl.
  induction source as [|[k1 v1] source IH]; [discriminate|].
  cbn [lookup] in Hl. simpl.
  destruct (String.eqb_spec k0 k1) as [->|Hne]; [left; reflexivity|].
  right. exact (IH Hl).
Qed.

(** ** The loops *)

(** Running a callback that may throw over a list and appending what it
    yields: the shape of every [reduce] in index.js whose callback ends in
    [acc.concat(...)]. *)
Fixpoint collect {E B : Type} (g : E -> result (list B)) (l : list E)
  : result (list B) :=
  match l with
  | [] => ok []
  | x :: l' => c <- g x ;; cs <- collect g l' ;; ok (c ++ cs)%list
  end.

Lemma bind_ok {A : Type} (m : result A) : (x <- m ;; ok x) = m.
Proof. destruct m; reflexivity. Qed.

Lemma reduce_from_appending {E B : Type}
  (f : list B -> E -> nat -> result (list B)) (g : E -> result (list B))
  (l : list E) :
  (forall acc x i, In x l -> f acc x i = (c <- g x ;; ok (acc ++ c)%list)) ->
  forall i acc,
    reduce_from f l i acc = (cs <- collect g l ;; ok (acc ++ cs)%list).
Proof.
  induction l as [|x l IH]; intros Hf i acc; simpl.
  - rewrite app_nil_r. reflexivity.
  - rewrite (Hf acc x i (or_introl eq_refl)).
    destruct (g x) as [c|e]; simpl; [|reflexivity].
    rewrite IH by (intros; apply Hf; right; assumption).
    destruct (collect g l) as [cs|e]; simpl; [|reflexivity].
    rewrite app_assoc. reflexivity.
Qed.

Lemma reduce_appending {E B : Type}
  (f : list B -> E -> nat -> result (list B)) (g : E -> result (list B))
  (l : list E) :
  (forall acc x i, In x l -> f acc x i = (c <- g x ;; ok (acc ++ c)%list)) ->
  reduce f l [] = collect g l.
Proof.
  intros Hf. unfold reduce. rewrite (reduce_from_appending f g l Hf).
  simpl. apply bind_ok.
Qed.

Lemma collect_app {E B : Type} (g : E -> result (list B)) (l1 l2 : list E) :
  collect g (l1 ++ l2)
  = (a <- collect g l1 ;; b <- collect g l2 ;; ok (a ++ b)%list).
Proof.
  induction l1 as [|x l1 IH]; simpl.
  - symmetry. apply bind_ok.
  - destruct (g x) as [c|e]; simpl; [|reflexivity].
    rewrite IH.
    destruct (collect g l1) as [a|e]; simpl; [|reflexivity].
    destruct (collect g l2) as [b|e]; simpl; [|reflexivity].
    rewrite app_assoc. reflexivity.
Qed.

Lemma collect_ext {E B : Type} (g h : E -> result (list B)) (l : list E) :
  (forall x, In x l -> g x = h x) -> collect g l = collect h l.
Proof.
  induction l as [|x l IH]; intros H; simpl; [reflexivity|].
  rewrite (H x (or_introl eq_refl)), IH; [reflexivity|].
  intros; apply H; right; assumption.
Qed.

(** ** Client construction *)

(** A well-formed construction input: both ARNs, no options, no database,
    and [hydrateColumnNames] as given. *)
Definition construction_input (h : jsval) : jsval :=
  JObj [("secretArn", JStr "arn:secret"); ("resourceArn", JStr "arn:cluster");
        ("hydrateColumnNames", h)].

Definition minimal_input : jsval :=
  JObj [("secretArn", JStr "arn:secret"); ("resourceArn", JStr "arn:cluster")].

Lemma module_exports_hydrate (params : jsval) (config : Config) :
  module_exports params = ok config ->
  exists h, get params "hydrateColumnNames" = ok h
            /\ hydrateColumnNames config = negb (String.eqb (typeof h) "boolean").
Proof.
  unfold module_exports, bind, error.
  destruct (get params "options") as [o|]; [|discriminate].
  destruct (String.eqb (typeof o) "object");
    [|destruct (negb (is_undefined o)); [discriminate|]];
    (destruct (get params "secretArn") as [s|]; [|discriminate];
     destruct (as_string s); [|discriminate];
     destruct (get params "resourceArn") as [r|]; [|discriminate];
     destruct (as_string r); [|discriminate];
     destruct (get params "database") as [d|]; [|discriminate];
     destruct (as_string d);
       [|destruct (negb (is_undefined d)); [discriminate|]];
     (destruct (get params "hydrateColumnNames") as [h|]; [|discriminate];
      intros H; injection H as <-; exists h; split; [reflexivity|];
      simpl; destruct (String.eqb (typeof h) "boolean"); reflexivity)).
Qed.

(** C1, at the input [{secretArn, resourceArn, hydrateColumnNames: true}]:
    construction succeeds and the configuration's [hydrateColumnNames] is
    false, not the supplied true.  Every supplied boolean gives false; only
    an absent field gives the documented default true. *)
Theorem module_exports_hydrate_true_gives_false :
  (exists config,
      module_exports (construction_input (JBool true)) = ok config
      /\ hydrateColumnNames config = false)
  /\ (forall b, exists config,
         module_exports (construction_input (JBool b)) = ok config
         /\ hydrateColumnNames config = false)
  /\ (exists config,
         module_exports minimal_input = ok config
         /\ hydrateColumnNames config = true).
Proof.
  split; [|split].
  - eexists; split; reflexivity.
  - intros b; eexists; split; reflexivity.
  - eexists; split; reflexivity.
Qed.

(** ** Result hydration *)

(** The records [[{stringValue:"x"}],[{isNull:true}]] and the column
    metadata [{label:"col"}]. *)
Definition sample_records : jsval :=
  JArr [JArr [JObj [("stringValue", JStr "x")]];
        JArr [JObj [("isNull", JBool true)]]].

Definition sample_columns : jsval := JArr [JObj [("label", JStr "col")]].

Definition sample_response (updated : jsval) : jsval :=
  JObj [("columnMetadata", sample_columns);
        ("numberOfRecordsUpdated", updated);
        ("records", sample_records)].

Definition hydrated_records : jsval :=
  JArr [JObj [("col", JStr "x")]; JObj [("col", JNull)]].

Definition positional_records : jsval :=
  JArr [JArr [JStr "x"]; JArr [JNull]].

(** The output object: [columnMetadata] first when it was asked for. *)
Definition output (includeMeta : bool) (updated records : jsval) : jsval :=
  JObj ((if includeMeta then [("columnMetadata", sample_columns)] else [])
        ++ [("numberOfRecordsUpdated", updated); ("records", records)])%list.

(** C3: on the sample records, hydration with the column metadata gives
    [{col:"x"},{col:null}] and hydration without gives [["x"],[null]]; in
    both modes, and with or without the metadata in the output,
    [numberOfRecordsUpdated] is the response's own value. *)
Theorem formatResults_sample (updated : jsval) (includeMeta : bool) :
  formatRecords sample_records sample_columns = ok hydrated_records
  /\ formatRecords sample_records (JBool false) = ok positional_records
  /\ formatResults (sample_response updated) true includeMeta
     = ok (output includeMeta updated hydrated_records)
  /\ formatResults (sample_response updated) false includeMeta
     = ok (output includeMeta updated positional_records).
Proof.
  repeat split; try reflexivity; destruct includeMeta; reflexivity.
Qed.

(** Whatever the records are, a successful hydration carries
    [numberOfRecordsUpdated] over from the response. *)
Lemma formatResults_numberOfRecordsUpdated
  (response out : jsval) (hydrate includeMeta : bool) :
  formatResults response hydrate includeMeta = ok out ->
  get out "numberOfRecordsUpdated" = get response "numberOfRecordsUpdated".
Proof.
  unfold formatResults, bind.
  destruct (get response "columnMetadata") as [cm|]; [|discriminate].
  destruct (get response "numberOfRecordsUpdated") as [n|]; [|discriminate].
  destruct (get response "records") as [rs|]; [|discriminate].
  destruct (formatRecords rs _) as [recs|]; [|discriminate].
  intros H; injection H as <-.
  destruct includeMeta; reflexivity.
Qed.

(** C10: a response whose [records] is the empty array makes the hydrator
    throw a TypeError, in both hydration modes and whatever else the
    response holds: [recs[0]] is undefined and [.map] is read from it. *)
Theorem formatResults_empty_records_throws
  (response : jsval) (hydrate includeMeta : bool) :
  get response "records" = ok (JArr []) ->
  formatResults response hydrate includeMeta = throw TypeError.
Proof.
  intros Hrec. unfold formatResults, bind. rewrite Hrec.
  destruct response; simpl in *; try discriminate; reflexivity.
Qed.

(** ** Database resolution *)

Definition no_transport : RDSDataService :=
  {| executeStatement := fun _ => throw TypeError;
     batchExecuteStatement := fun _ => throw TypeError |}.

Definition sample_config (db : option string) : Config :=
  {| secretArn := "arn:secret"; resourceArn := "arn:cluster";
     database := db; hydrateColumnNames := true; RDS := no_transport |}.

(** The options-object call [query({sql: "SELECT 1", database: db})]. *)
Definition call_with_database (db : jsval) : list jsval :=
  [JObj [("sql", JStr "SELECT 1"); ("database", db)]].

(** C9 as stated fails at [database: 0] with a configured default: the
    value is supplied and is not a string, and the call resolves to the
    default instead of throwing. *)
Lemma parseDatabase_falsy_falls_back :
  ~ (forall (config : Config) (args : list jsval) (db : jsval),
        get (arg args 0) "database" = ok db ->
        db <> JUndefined ->
        typeof db <> "string" ->
        parseDatabase config args = error "'database' must be a string.").
Proof.
  intros Hall.
  specialize (Hall (sample_config (Some "main"))
                   (call_with_database (JNum (num_of_Z 0)))
                   (JNum (num_of_Z 0)) eq_refl).
  assert (H : parseDatabase (sample_config (Some "main"))
                (call_with_database (JNum (num_of_Z 0))) = ok (JStr "main"))
    by reflexivity.
  rewrite H in Hall.
  discriminate Hall; [discriminate | discriminate].
Qed.

(** C9, amended: a string on the call wins over the default; a truthy value
    that is not a string is rejected with "'database' must be a string."; a
    falsy value that is not a string (undefined, null, false, 0, NaN) is
    treated like an absent one, so that the call resolves as the same call
    without a database does: to the configuration's default, and to
    "No 'database' provided." when the configuration has none (or an empty
    one). *)
Theorem parseDatabase_resolution
  (config : Config) (args : list jsval) (db : jsval) :
  get (arg args 0) "database" = ok db ->
  (typeof db = "string" -> parseDatabase config args = ok db)
  /\ (typeof db <> "string" -> truthy db = true ->
      parseDatabase config args = error "'database' must be a string.")
  /\ (typeof db <> "string" -> truthy db = false ->
      forall args', get (arg args' 0) "database" = ok JUndefined ->
      parseDatabase config args = parseDatabase config args')
  /\ (typeof db <> "string" -> truthy db = false ->
      forall s, database config = Some s -> s <> EmptyString ->
      parseDatabase config args = ok (JStr s))
  /\ (typeof db <> "string" -> truthy db = false ->
      database config = None \/ database config = Some EmptyString ->
      parseDatabase config args = error "No 'database' provided.").
Proof.
  intros Hget. unfold parseDatabase, bind. rewrite Hget.
  destruct (String.eqb_spec (typeof db) "string") as [Hs|Hs].
  - repeat split; intros; try contradiction; reflexivity.
  - split; [intros; contradiction|].
    split; [intros _ ->; reflexivity|].
    split; [|split].
    + intros _ -> args' ->. reflexivity.
    + intros _ -> s -> Hne. destruct s; [contradiction|reflexivity].
    + intros _ -> [-> | ->]; reflexivity.
Qed.

(** In [query], database resolution is reached once the statement, the
    hydration flag and the parameters have been accepted; its error is then
    the error of the call, before anything is sent. *)
Lemma buildRequest_database_error
  (config : Config) (args : list jsval) (sql parameters : jsval)
  (hydrate : bool) (target : props) (e : exn) :
  parseSQL args = ok sql ->
  parseHydrate config args = ok hydrate ->
  (raw <- parseParams args ;; annotateParams raw) = ok parameters ->
  prepareParams config args = ok target ->
  parseDatabase config args = throw e ->
  buildRequest config args = throw e /\ query config args = throw e.
Proof.
  intros Hsql Hh Hp Ht Hdb.
  assert (Hb : buildRequest config args = throw e).
  { unfold buildRequest. rewrite Hsql, Hh. simpl.
    unfold bind in Hp |- *.
    destruct (parseParams args) as [raw|]; [|discriminate].
    rewrite Hp, Ht, Hdb. reflexivity. }
  split; [exact Hb|]. unfold query. rewrite Hb. reflexivity.
Qed.

(** ** Type inference *)

(** The wire types, in the order of precedence. *)
Inductive wire_type : Type :=
| WString | WBoolean | WInteger | WDouble | WNull | WBinary.

Definition precedence : list wire_type :=
  [WString; WBoolean; WInteger; WDouble; WNull; WBinary].

Definition tag (w : wire_type) : string :=
  match w with
  | WString => "stringValue"
  | WBoolean => "booleanValue"
  | WInteger => "longValue"
  | WDouble => "doubleValue"
  | WNull => "isNull"
  | WBinary => "blobValue"
  end.

(** A number whose value is an integer: a zero, or a finite [m * 2^e] that
    is integral. *)
Definition exact_integer (n : number) : bool :=
  match n with
  | S754_zero _ => true
  | S754_finite _ m e => integral m e
  | _ => false
  end.

(** A number below 10^21 in magnitude, which Number::toString writes without
    an exponent. *)
Definition below_exponent_notation (n : number) : bool :=
  match n with
  | S754_zero _ => true
  | S754_finite _ m e => (magnitude m e <? 10 ^ 21)%Z
  | _ => false
  end.

Definition is_NaN (n : number) : bool :=
  match n with S754_nan => true | _ => false end.

(** When a value has a wire type: the integer type fits the exact integers
    below 10^21 in magnitude, the double type every number but NaN, the
    infinities and the exact integers from 10^21 on included. *)
Definition fits (w : wire_type) (val : jsval) : bool :=
  match w, val with
  | WString, JStr _ => true
  | WBoolean, JBool _ => true
  | WInteger, JNum n => exact_integer n && below_exponent_notation n
  | WDouble, JNum n => negb (is_NaN n)
  | WNull, JNull => true
  | WBinary, JBuffer _ => true
  | _, _ => false
  end.

(** The first wire type in the order of precedence that fits. *)
Definition wire_tag (val : jsval) : option string :=
  option_map tag (find (fun w => fits w val) precedence).

(** The Named Parameter [{ name, value: { [t]: value } }]. *)
Definition named_parameter (name t : string) (value : jsval) : jsval :=
  JObj [("name", JStr name); ("value", JObj [(t, value)])].

Lemma getType_wire_tag (val : jsval) : getType val = wire_tag val.
Proof.
  destruct val as [| |b|n|s|l|o|bs|src]; try reflexivity.
  destruct n as [sg|sg| |sg m e]; try reflexivity.
  unfold getType, wire_tag. simpl.
  match goal with |- context [if ?c then _ else _] => destruct c end;
    reflexivity.
Qed.

(** The boundary of the exact-integer test: 10^21 is [5^21 * 2^21], an
    integral value that Number::toString writes as [1e+21], so that
    [parseInt] reads 1 back and the value is tagged as a double; one less
    binary digit of magnitude, [5^21 * 2^20], is written in full and is
    tagged as an integer. *)
Lemma getType_exponent_notation :
  getType (JNum (S754_finite false (5 ^ 21) 21)) = Some "doubleValue"
  /\ getType (JNum (S754_finite false (5 ^ 21) 20)) = Some "longValue".
Proof. split; vm_compute; reflexivity. Qed.

Lemma getType_truthy (val : jsval) (t : string) :
  getType val = Some t -> truthy (JStr t) = true.
Proof.
  unfold getType.
  repeat match goal with
         | |- context [if ?c then _ else _] => destruct c
         end; intros H; inversion H; reflexivity.
Qed.

Lemma formatType_valid (name t : string) (val : jsval) :
  getType val = Some t ->
  formatType name val (getType val) = ok (named_parameter name t val).
Proof.
  intros H. unfold formatType. rewrite H, (getType_truthy _ _ H). simpl.
  rewrite obj_lit_single. reflexivity.
Qed.

Lemma formatType_invalid (name : string) (val : jsval) :
  getType val = None ->
  formatType name val (getType val) = error (invalid_type_message name).
Proof. intros H. unfold formatType. rewrite H. reflexivity. Qed.

(** What one entry of the parameter list adds to the annotated list: the
    body of the callback of [annotateParams] without its accumulator. *)
Definition annotateEntry (p : jsval) : result (list jsval) :=
  if isArray p then inner <- annotateParams p ;; ok [inner]
  else
    pre <- and_then (ks <- keys p ;; ok (Nat.eqb (List.length ks) 2))
             (and_then (prop_truthy p "name") (prop_truthy p "value")) ;;
    if pre then ok [p]
    else fp <- formatParams p ;; ok (elems fp).

(** What one property of a plain object becomes. *)
Definition named (kv : string * jsval) : result (list jsval) :=
  match getType (snd kv) with
  | Some t => ok [named_parameter (fst kv) t (snd kv)]
  | None => error (invalid_type_message (fst kv))
  end.

Lemma formatType_concat (arr : list jsval) (k : string) (v : jsval) :
  (e <- formatType k v (getType v) ;; ok (concat arr e))
  = (c <- named (k, v) ;; ok (arr ++ c)%list).
Proof.
  unfold named. simpl. destruct (getType v) as [t|] eqn:H.
  - rewrite <- H, (formatType_valid _ _ _ H). reflexivity.
  - rewrite <- H, (formatType_invalid _ _ H). reflexivity.
Qed.

Lemma lookup_In (o : props) (k : string) (v : jsval) :
  NoDup (map fst o) -> In (k, v) o -> lookup k o = Some v.
Proof.
  induction o as [|[k' v'] o IH]; simpl; intros Hnd Hin; [contradiction|].
  inversion Hnd as [|? ? Hni Hnd']; subst.
  destruct Hin as [Heq|Hin].
  - injection Heq as -> ->. rewrite String.eqb_refl. reflexivity.
  - destruct (String.eqb_spec k k') as [->|_].
    + exfalso. apply Hni. apply (in_map fst) in Hin. exact Hin.
    + apply IH; assumption.
Qed.

Lemma collect_map {A E B : Type} (f : A -> E) (g : E -> result (list B))
  (l : list A) :
  collect g (map f l) = collect (fun a => g (f a)) l.
Proof.
  induction l as [|a l IH]; simpl; [reflexivity|]. rewrite IH. reflexivity.
Qed.

(** A plain object with distinct keys becomes one Named Parameter per key,
    in key order; the first value without a wire type stops it. *)
Lemma formatParams_plain (o : props) :
  NoDup (map fst o) ->
  formatParams (JObj o) = (l <- collect named o ;; ok (JArr l)).
Proof.
  intros Hnd. unfold formatParams. simpl.
  rewrite (reduce_appending _
             (fun x => named (x, opt_val (lookup x o)))).
  - rewrite collect_map.
    rewrite (collect_ext _ named); [reflexivity|].
    intros [k v] Hin. simpl. rewrite (lookup_In o k v Hnd Hin). reflexivity.
  - intros acc x i _. apply formatType_concat.
Qed.

Lemma formatParams_elems (p : jsval) (acc : list jsval) :
  (fp <- formatParams p ;; ok (concat acc fp))
  = (c <- (fp <- formatParams p ;; ok (elems fp)) ;; ok (acc ++ c)%list).
Proof.
  unfold formatParams, bind.
  destruct (keys p); [|reflexivity].
  destruct (reduce _ _ _); reflexivity.
Qed.

(** [annotateParams] is the concatenation of what its entries add. *)
Lemma annotateParams_collect (l : list jsval) :
  annotateParams (JArr l)
  = (cs <- collect annotateEntry l ;; ok (JArr cs)).
Proof.
  simpl. rewrite (reduce_appending _ annotateEntry); [reflexivity|].
  intros acc p i _. unfold annotateEntry.
  destruct (isArray p) eqn:Harr.
  - destruct (annotateParams p); reflexivity.
  - destruct (and_then _ _) as [[|]|e]; simpl.
    + destruct p; try reflexivity. discriminate Harr.
    + apply formatParams_elems.
    + reflexivity.
Qed.

Lemma annotateParams_cons (p : jsval) (rest : list jsval) :
  annotateParams (JArr (p :: rest))
  = (c <- annotateEntry p ;;
     r <- annotateParams (JArr rest) ;;
     ok (JArr (c ++ elems r)%list)).
Proof.
  rewrite !annotateParams_collect. simpl.
  destruct (annotateEntry p); simpl; [|reflexivity].
  destruct (collect annotateEntry rest); reflexivity.
Qed.

Lemma annotateParams_invalid (name : string) (val : jsval) :
  getType val = None ->
  annotateParams (JArr [JObj [(name, val)]])
  = error (invalid_type_message name).
Proof.
  intros H. rewrite annotateParams_collect. simpl.
  unfold annotateEntry. simpl.
  rewrite formatParams_plain by apply NoDup_keys_single.
  simpl. unfold named. simpl. rewrite H. reflexivity.
Qed.

(** C4 as stated fails at 10^21: in the stated order the integer type comes
    before the double type, so that every number that is an exact integer
    would be tagged as an integer; 10^21, which is [5^21 * 2^21], is an exact
    integer and is tagged as a double. *)
Lemma getType_exact_integer_tagged_double :
  ~ (forall n, exact_integer n = true -> getType (JNum n) = Some "longValue").
Proof.
  intros Hall.
  specialize (Hall (S754_finite false (5 ^ 21) 21) eq_refl).
  assert (H : getType (JNum (S754_finite false (5 ^ 21) 21))
              = Some "doubleValue") by (vm_compute; reflexivity).
  rewrite H in Hall. discriminate Hall.
Qed.

(** C4, amended: [getType] picks the first wire type that fits in the order
    string, boolean, integer, double, null, binary, where the integer type
    fits the exact integers below 10^21 in magnitude and the double type
    every other number but NaN, the infinities and the exact integers from
    10^21 on included; so a value has at most one tag.  With a tag the Named
    Parameter carries the value under exactly that tag, and without one (a
    function and NaN among them) [formatType], and with it the annotation of
    an object holding the value, throws the "invalid type" error built from
    the key. *)
Theorem getType_precedence (name : string) (val : jsval) :
  getType val = wire_tag val
  /\ (forall t, getType val = Some t ->
        formatType name val (getType val) = ok (named_parameter name t val))
  /\ (getType val = None ->
      formatType name val (getType val) = error (invalid_type_message name)
      /\ annotateParams (JArr [JObj [(name, val)]])
         = error (invalid_type_message name))
  /\ (forall src, getType (JFunc src) = None)
  /\ getType (JNum NaN) = None
  /\ (forall negative,
        getType (JNum (S754_infinity negative)) = Some "doubleValue")
  /\ (forall n, getType (JNum n)
                = if exact_integer n && below_exponent_notation n
                  then Some "longValue"
                  else if is_NaN n then None else Some "doubleValue").
Proof.
  split; [apply getType_wire_tag|].
  split; [intros t; apply formatType_valid|].
  split; [intros H; split;
          [apply formatType_invalid | apply annotateParams_invalid]; exact H|].
  split; [reflexivity|]. split; [reflexivity|]. split; [reflexivity|].
  intros n. rewrite getType_wire_tag. unfold wire_tag. cbn.
  destruct (exact_integer n && below_exponent_notation n);
    [reflexivity|].
  destruct n; reflexivity.
Qed.

(** ** Parameter annotation *)

(** The already-annotated shape: exactly two keys, named [name] and
    [value], both with a truthy value. *)
Definition annotated_shape (o : props) : Prop :=
  exists n v,
    truthy n = true /\ truthy v = true
    /\ (o = [("name", n); ("value", v)] \/ o = [("value", v); ("name", n)]).

(** The test of the source on a plain object. *)
Definition passes_through (o : props) : bool :=
  Nat.eqb (List.length o) 2
  && truthy (opt_val (lookup "name" o))
  && truthy (opt_val (lookup "value" o)).

Lemma annotateEntry_object (o : props) :
  annotateEntry (JObj o)
  = if passes_through o then ok [JObj o]
    else fp <- formatParams (JObj o) ;; ok (elems fp).
Proof.
  unfold annotateEntry, passes_through, and_then, prop_truthy. simpl.
  rewrite length_map.
  destruct (Nat.eqb (List.length o) 2); simpl; [|reflexivity].
  destruct (truthy (opt_val (lookup "name" o))); reflexivity.
Qed.

Lemma truthy_opt_val (o : option jsval) :
  truthy (opt_val o) = true -> exists v, o = Some v /\ truthy v = true.
Proof.
  destruct o as [v|]; simpl; [|discriminate]. intros H. exists v. auto.
Qed.

Lemma passes_through_shape (o : props) :
  annotated_shape o -> passes_through o = true.
Proof.
  intros (n & v & Hn & Hv & [-> | ->]); unfold passes_through; simpl;
    rewrite Hn, Hv; reflexivity.
Qed.

Lemma shape_passes_through (o : props) :
  NoDup (map fst o) -> passes_through o = true -> annotated_shape o.
Proof.
  unfold passes_through. intros Hnd H.
  apply andb_prop in H as [H Hv]. apply andb_prop in H as [Hlen Hn].
  apply Nat.eqb_eq in Hlen.
  destruct o as [|[k1 v1] [|[k2 v2] [|? ?]]]; try discriminate Hlen.
  apply truthy_opt_val in Hn as (n & Hln & Hn).
  apply truthy_opt_val in Hv as (v & Hlv & Hv).
  cbn [lookup map fst] in Hln, Hlv, Hnd.
  inversion Hnd as [|? ? Hni _]; subst.
  assert (Hk : k1 <> k2) by (intros ->; apply Hni; left; reflexivity).
  exists n, v. split; [exact Hn|]. split; [exact Hv|].
  destruct (String.eqb_spec "name" k1) as [<-|Hn1].
  - injection Hln as ->.
    destruct (String.eqb_spec "value" "name") as [Habs|_];
      [discriminate Habs|].
    destruct (String.eqb_spec "value" k2) as [<-|Hv2]; [|discriminate].
    injection Hlv as ->. left. reflexivity.
  - destruct (String.eqb_spec "name" k2) as [<-|Hn2]; [|discriminate].
    injection Hln as ->.
    destruct (String.eqb_spec "value" k1) as [<-|Hv1].
    + injection Hlv as ->. right. reflexivity.
    + destruct (String.eqb_spec "value" "name") as [Habs|_];
        discriminate.
Qed.

Lemma annotateParams_middle (pre post : list jsval) (p : jsval) :
  annotateParams (JArr (pre ++ p :: post))
  = (a <- annotateParams (JArr pre) ;;
     c <- annotateEntry p ;;
     b <- annotateParams (JArr post) ;;
     ok (JArr (elems a ++ c ++ elems b)%list)).
Proof.
  rewrite !annotateParams_collect, collect_app. simpl.
  destruct (collect annotateEntry pre); simpl; [|reflexivity].
  destruct (annotateEntry p); simpl; [|reflexivity].
  destruct (collect annotateEntry post); reflexivity.
Qed.

(** The tag of a value that has one. *)
Definition tag_of (v : jsval) : string :=
  match getType v with Some t => t | None => EmptyString end.

Lemma collect_named_typed (o : props) :
  (forall k v, In (k, v) o -> getType v <> None) ->
  collect named o
  = ok (map (fun kv => named_parameter (fst kv) (tag_of (snd kv)) (snd kv)) o).
Proof.
  induction o as [|[k v] o IH]; intros H; simpl; [reflexivity|].
  rewrite IH by (intros k' v' Hin; apply (H k' v'); right; exact Hin).
  unfold named, tag_of. simpl.
  destruct (getType v) eqn:Hv; [reflexivity|].
  exfalso. apply (H k v); [left; reflexivity|exact Hv].
Qed.

(** C6: at whatever position [p] stands in the parameter list, with [pre]
    before it and [post] after it: an object of the already-annotated shape
    is passed through as it is; any other plain object becomes the Named
    Parameters of its keys, in key order, one per key when every value has a
    wire type; an array becomes one nested array, its own annotation. *)
Theorem annotateParams_entry (pre post : list jsval) (p : jsval) :
  (forall o, p = JObj o -> annotated_shape o ->
     annotateParams (JArr (pre ++ p :: post))
     = (a <- annotateParams (JArr pre) ;;
        b <- annotateParams (JArr post) ;;
        ok (JArr (elems a ++ p :: elems b)%list)))
  /\ (forall o, p = JObj o -> NoDup (map fst o) -> ~ annotated_shape o ->
       annotateParams (JArr (pre ++ p :: post))
       = (a <- annotateParams (JArr pre) ;;
          nps <- collect named o ;;
          b <- annotateParams (JArr post) ;;
          ok (JArr (elems a ++ nps ++ elems b)%list))
       /\ ((forall k v, In (k, v) o -> getType v <> None) ->
           collect named o
           = ok (map (fun kv =>
                        named_parameter (fst kv) (tag_of (snd kv)) (snd kv))
                     o)))
  /\ (forall l, p = JArr l ->
       annotateParams (JArr (pre ++ p :: post))
       = (a <- annotateParams (JArr pre) ;;
          inner <- annotateParams (JArr l) ;;
          b <- annotateParams (JArr post) ;;
          ok (JArr (elems a ++ inner :: elems b)%list))).
Proof.
  split; [|split].
  - intros o -> Hs. rewrite annotateParams_middle, annotateEntry_object.
    rewrite (passes_through_shape o Hs). reflexivity.
  - intros o -> Hnd Hs. split; [|apply collect_named_typed].
    rewrite annotateParams_middle, annotateEntry_object.
    destruct (passes_through o) eqn:Hp.
    + exfalso. apply Hs. apply shape_passes_through; assumption.
    + rewrite (formatParams_plain o Hnd).
      destruct (annotateParams (JArr pre)); simpl; [|reflexivity].
      destruct (collect named o); reflexivity.
  - intros l ->. rewrite annotateParams_middle.
    unfold annotateEntry. cbn [isArray].
    generalize (annotateParams (JArr pre)) (annotateParams (JArr l))
               (annotateParams (JArr post)).
    intros [a|e1] [inner|e2] [b|e3]; reflexivity.
Qed.

(** ** Request assembly *)

(** One step of the loop of [omit]. *)
Definition omit_step (o : props) (values : list string) (acc : props)
  (x : string) : props :=
  if includes values x then acc else set_prop x (opt_val (lookup x o)) acc.

Lemma omit_reduce (o : props) (values ks : list string) (i : nat)
  (acc : props) :
  reduce_from (fun acc x (_ : nat) =>
                 if includes values x then ok acc
                 else v <- get (JObj o) x ;; ok (assign acc (obj_lit [(x, v)])))
              ks i acc
  = ok (fold_left (omit_step o values) ks acc).
Proof.
  revert i acc. induction ks as [|x ks IH]; intros i acc; [reflexivity|].
  cbn [reduce_from fold_left]. unfold omit_step at 2.
  destruct (includes values x); cbn [get bind].
  - apply IH.
  - rewrite assign_single. apply IH.
Qed.

Lemma omit_fold (o : props) (values : list string) :
  omit (JObj o) values = ok (fold_left (omit_step o values) (map fst o) []).
Proof. unfold omit, reduce. cbn [keys bind]. apply omit_reduce. Qed.

Lemma NoDup_omit_fold (o : props) (values ks : list string) (acc : props) :
  NoDup (map fst acc) ->
  NoDup (map fst (fold_left (omit_step o values) ks acc)).
Proof.
  revert acc. induction ks as [|x ks IH]; intros acc Hnd; [exact Hnd|].
  cbn [fold_left]. apply IH. unfold omit_step.
  destruct (includes values x); [exact Hnd|].
  apply NoDup_set_prop. exact Hnd.
Qed.

Lemma lookup_omit_fold (o : props) (values ks : list string) (acc : props)
  (k : string) :
  lookup k (fold_left (omit_step o values) ks acc)
  = if existsb (String.eqb k) ks && negb (includes values k)
    then Some (opt_val (lookup k o))
    else lookup k acc.
Proof.
  revert acc. induction ks as [|x ks IH]; intros acc; [reflexivity|].
  cbn [fold_left existsb]. rewrite IH. unfold omit_step.
  destruct (existsb (String.eqb k) ks); cbn [orb andb].
  - rewrite orb_true_r. cbn [andb].
    destruct (includes values k) eqn:Hk; cbn [negb]; [|reflexivity].
    destruct (includes values x) eqn:Hx; [reflexivity|].
    rewrite lookup_set_prop.
    destruct (String.eqb_spec k x) as [->|_]; [congruence|reflexivity].
  - rewrite orb_false_r.
    destruct (String.eqb_spec k x) as [->|Hne]; cbn [andb].
    + destruct (includes values x); cbn [negb]; [reflexivity|].
      rewrite lookup_set_prop, String.eqb_refl. reflexivity.
    + destruct (includes values x); [reflexivity|].
      rewrite lookup_set_prop.
      destruct (String.eqb_spec k x); [contradiction|reflexivity].
Qed.

Lemma existsb_keys (k : string) (o : props) :
  existsb (String.eqb k) (map fst o)
  = match lookup k o with Some _ => true | None => false end.
Proof.
  induction o as [|[k0 v0] o IH]; [reflexivity|].
  cbn [map fst existsb lookup].
  destruct (String.eqb k k0); [reflexivity|exact IH].
Qed.

(** [omit] drops the listed keys and keeps every other property. *)
Lemma omit_object (o : props) (values : list string) :
  exists r,
    omit (JObj o) values = ok r
    /\ NoDup (map fst r)
    /\ forall k, lookup k r = if includes values k then None else lookup k o.
Proof.
  eexists. split; [apply omit_fold|]. split.
  - apply NoDup_omit_fold. constructor.
  - intros k. rewrite lookup_omit_fold, existsb_keys.
    destruct (lookup k o); destruct (includes values k); reflexivity.
Qed.

(** Once the statement has been accepted, the first argument is the
    statement itself or an options object. *)
Lemma parseSQL_first_argument (args : list jsval) (sql : jsval) :
  parseSQL args = ok sql ->
  (exists s, arg args 0 = JStr s) \/ (exists o, arg args 0 = JObj o).
Proof.
  unfold parseSQL.
  destruct (arg args 0) as [| |b|n|s|l|o|bs|src]; try discriminate.
  - intros _. left. exists s. reflexivity.
  - intros _. right. exists o. reflexivity.
Qed.

(** The caller's own value of a key other than the ones the assembler
    manages is what the prepared payload holds. *)
Lemma prepareParams_caller_key (config : Config) (args : list jsval)
  (sql : jsval) (target : props) (k : string) :
  parseSQL args = ok sql ->
  prepareParams config args = ok target ->
  includes ["hydrateColumnNames"; "secretArn"; "resourceArn"] k = false ->
  lookup k target
  = match arg args 0 with JObj o => lookup k o | _ => None end.
Proof.
  intros Hsql Ht Hk. unfold prepareParams in Ht.
  cbn [includes existsb] in Hk.
  apply orb_false_elim in Hk as [Hh Hk].
  apply orb_false_elim in Hk as [Hs Hk].
  apply orb_false_elim in Hk as [Hr _].
  destruct (parseSQL_first_argument args sql Hsql) as [[s Ha]|[o Ha]];
    rewrite Ha in *; cbn [typeof] in Ht.
  - cbn in Ht. injection Ht as <-. cbn [lookup]. rewrite Hs, Hr. reflexivity.
  - destruct (omit_object o ["hydrateColumnNames"]) as (r & Hr' & Hnd & Hl).
    change (String.eqb "object" "object") with true in Ht. cbv iota in Ht.
    rewrite Hr' in Ht. cbn [bind] in Ht. injection Ht as <-.
    rewrite (lookup_assign _ _ _ Hnd), Hl.
    cbn [includes existsb]. rewrite Hh. cbn [orb].
    destruct (lookup k o); [reflexivity|].
    cbn. rewrite Hs, Hr. reflexivity.
Qed.

Lemma annotateParams_array (raw out : jsval) :
  annotateParams raw = ok out -> exists l, out = JArr l.
Proof.
  destruct raw; try discriminate. cbn [annotateParams].
  destruct (reduce _ _ _) as [acc|]; [|discriminate].
  intros H. injection H as <-. exists acc. reflexivity.
Qed.

(** What a successful [buildRequest] went through. *)
Lemma buildRequest_inv (config : Config) (args : list jsval) (req : Request) :
  buildRequest config args = ok req ->
  exists sql parameters target db,
    parseSQL args = ok sql
    /\ parseHydrate config args = ok (req_hydrate req)
    /\ (raw <- parseParams args ;; annotateParams raw) = ok (JArr parameters)
    /\ prepareParams config args = ok target
    /\ parseDatabase config args = ok db
    /\ req_isBatch req = isBatch (JArr parameters)
    /\ req_params req
       = assign
           (assign
              (set_prop "sql" sql (set_prop "database" db target))
              (if Nat.ltb 0 (List.length parameters)
               then [(if req_isBatch req then "parameterSets" else "parameters",
                      JArr parameters)]
               else []))
           (if req_hydrate req && negb (req_isBatch req)
            then [("includeResultMetadata", JBool true)]
            else []).
Proof.
  unfold buildRequest.
  destruct (parseSQL args) as [sql|]; [|discriminate].
  destruct (parseHydrate config args) as [h|]; [|discriminate].
  destruct (parseParams args) as [raw|]; [|discriminate].
  cbn [bind].
  destruct (annotateParams raw) as [ps|] eqn:Hps; [|discriminate].
  destruct (annotateParams_array _ _ Hps) as [l ->].
  destruct (prepareParams config args) as [target|]; [|discriminate].
  destruct (parseDatabase config args) as [db|]; [|discriminate].
  cbn [bind elems]. intros H. injection H as <-. cbn [req_hydrate req_isBatch req_params].
  exists sql, l, target, db. repeat split; try reflexivity.
  rewrite !obj_lit_single. reflexivity.
Qed.

Lemma isBatch_spec (parameters : list jsval) :
  isBatch (JArr parameters) = true
  <-> exists l rest, parameters = JArr l :: rest.
Proof.
  unfold isBatch. cbn [elems]. split.
  - destruct parameters as [|p rest]; [discriminate|].
    destruct p; try discriminate. intros _. eauto.
  - intros (l & rest & ->). reflexivity.
Qed.

(** What the payload holds under any key, from its three layers. *)
Lemma lookup_payload (target : props) (sql db parameters : jsval)
  (nonempty batch hydrate : bool) (k : string) :
  lookup k
    (assign
       (assign
          (set_prop "sql" sql (set_prop "database" db target))
          (if nonempty
           then [(if batch then "parameterSets" else "parameters", parameters)]
           else []))
       (if hydrate && negb batch
        then [("includeResultMetadata", JBool true)]
        else []))
  = if String.eqb k "includeResultMetadata" && (hydrate && negb batch)
    then Some (JBool true)
    else if String.eqb k (if batch then "parameterSets" else "parameters")
            && nonempty
    then Some parameters
    else if String.eqb k "sql" then Some sql
    else if String.eqb k "database" then Some db
    else lookup k target.
Proof.
  rewrite lookup_assign
    by (destruct (hydrate && negb batch);
        [apply NoDup_keys_single | constructor]).
  rewrite lookup_assign
    by (destruct nonempty; [apply NoDup_keys_single | constructor]).
  rewrite !lookup_set_prop.
  destruct (hydrate && negb batch); destruct nonempty; cbn [lookup andb];
    rewrite ?andb_true_r, ?andb_false_r;
    repeat match goal with
           | |- context [String.eqb k ?b] => destruct (String.eqb k b)
           end; reflexivity.
Qed.

(** C5: a request is a batch exactly when the annotated parameter list is
    not empty and starts with an array; [query] sends a batch to
    [batchExecuteStatement] and anything else to [executeStatement]; and the
    payload's [includeResultMetadata] is true when hydration is on and the
    request is not a batch, and otherwise is whatever the caller's options
    object holds under that key, if anything. *)
Theorem query_batch_and_metadata
  (config : Config) (args : list jsval) (req : Request) :
  buildRequest config args = ok req ->
  (exists parameters,
      (raw <- parseParams args ;; annotateParams raw) = ok (JArr parameters)
      /\ (req_isBatch req = true
          <-> exists l rest, parameters = JArr l :: rest))
  /\ parseHydrate config args = ok (req_hydrate req)
  /\ query config args
     = (response <- (if req_isBatch req
                     then batchExecuteStatement (RDS config)
                            (JObj (req_params req))
                     else executeStatement (RDS config)
                            (JObj (req_params req))) ;;
        includeMeta <- get (arg args 0) "includeResultMetadata" ;;
        formatResults response (req_hydrate req)
          (if is_true includeMeta then true else false))
  /\ lookup "includeResultMetadata" (req_params req)
     = if req_hydrate req && negb (req_isBatch req)
       then Some (JBool true)
       else match arg args 0 with
            | JObj o => lookup "includeResultMetadata" o
            | _ => None
            end.
Proof.
  intros Hreq.
  destruct (buildRequest_inv _ _ _ Hreq)
    as (sql & ps & target & db & Hsql & Hh & Hps & Ht & Hdb & Hb & Hp).
  split; [|split; [|split]].
  - exists ps. split; [exact Hps|]. rewrite Hb. apply isBatch_spec.
  - exact Hh.
  - unfold query. rewrite Hreq. reflexivity.
  - rewrite Hp, lookup_payload.
    change (String.eqb "includeResultMetadata" "includeResultMetadata")
      with true.
    cbn [andb].
    destruct (req_hydrate req && negb (req_isBatch req)); [reflexivity|].
    destruct (req_isBatch req); cbn;
      apply (prepareParams_caller_key config args sql target _ Hsql Ht);
      reflexivity.
Qed.

(** The two parameter keys of the payload, for every accepted call: the
    annotated list under the key that fits it, and under the other key (or
    under both when the annotated list is empty) whatever the caller's
    options object holds there. *)
Lemma buildRequest_parameter_keys
  (config : Config) (args : list jsval) (req : Request) :
  buildRequest config args = ok req ->
  exists parameters,
    (raw <- parseParams args ;; annotateParams raw) = ok (JArr parameters)
    /\ lookup "parameters" (req_params req)
       = (if negb (req_isBatch req) && Nat.ltb 0 (List.length parameters)
          then Some (JArr parameters)
          else match arg args 0 with
               | JObj o => lookup "parameters" o
               | _ => None
               end)
    /\ lookup "parameterSets" (req_params req)
       = (if req_isBatch req && Nat.ltb 0 (List.length parameters)
          then Some (JArr parameters)
          else match arg args 0 with
               | JObj o => lookup "parameterSets" o
               | _ => None
               end).
Proof.
  intros Hreq.
  destruct (buildRequest_inv _ _ _ Hreq)
    as (sql & ps & target & db & Hsql & Hh & Hps & Ht & Hdb & Hb & Hp).
  exists ps. split; [exact Hps|].
  rewrite Hp, !lookup_payload.
  split; destruct (req_isBatch req);
    destruct (Nat.ltb 0 (List.length ps)); cbn; try reflexivity;
    apply (prepareParams_caller_key config args sql target _ Hsql Ht);
    reflexivity.
Qed.

(** When the statement is passed as a string, the payload has at most one
    of the two keys, and none when there is nothing to send. *)
Lemma buildRequest_string_call_exclusive
  (config : Config) (args : list jsval) (req : Request) (s : string) :
  arg args 0 = JStr s ->
  buildRequest config args = ok req ->
  exists parameters,
    (raw <- parseParams args ;; annotateParams raw) = ok (JArr parameters)
    /\ lookup "parameters" (req_params req)
       = (if negb (req_isBatch req) && Nat.ltb 0 (List.length parameters)
          then Some (JArr parameters) else None)
    /\ lookup "parameterSets" (req_params req)
       = (if req_isBatch req && Nat.ltb 0 (List.length parameters)
          then Some (JArr parameters) else None).
Proof.
  intros Ha Hreq.
  destruct (buildRequest_parameter_keys _ _ _ Hreq) as (ps & Hps & H1 & H2).
  rewrite Ha in H1, H2. exists ps. auto.
Qed.

(** The options-object calls
    [query({sql: "INSERT ...", parameters: [[{id: 1}], [{id: 2}]]})] and
    [query({sql: "SELECT 1", parameters: []})]. *)
Definition batch_parameters : jsval :=
  JArr [JArr [JObj [("id", JNum (num_of_Z 1))]];
        JArr [JObj [("id", JNum (num_of_Z 2))]]].

Definition annotated_batch : jsval :=
  JArr [JArr [named_parameter "id" "longValue" (JNum (num_of_Z 1))];
        JArr [named_parameter "id" "longValue" (JNum (num_of_Z 2))]].

Definition options_call (parameters : jsval) : list jsval :=
  [JObj [("sql", JStr "INSERT INTO t (id) VALUES (:id)");
         ("parameters", parameters)]].

(** C2, at the two calls above.  The batch call's payload holds both
    [parameterSets], the annotated sets, and [parameters], the caller's raw
    array; the call with an empty parameter array annotates to nothing and
    its payload still holds [parameters].  [omit] removes only
    [hydrateColumnNames] from the options object. *)
Theorem buildRequest_options_parameters_kept :
  (exists req,
      buildRequest (sample_config (Some "main")) (options_call batch_parameters)
      = ok req
      /\ req_isBatch req = true
      /\ lookup "parameterSets" (req_params req) = Some annotated_batch
      /\ lookup "parameters" (req_params req) = Some batch_parameters)
  /\ (exists req,
         buildRequest (sample_config (Some "main")) (options_call (JArr []))
         = ok req
         /\ (raw <- parseParams (options_call (JArr [])) ;; annotateParams raw)
            = ok (JArr [])
         /\ lookup "parameterSets" (req_params req) = None
         /\ lookup "parameters" (req_params req) = Some (JArr [])).
Proof.
  split; eexists; repeat split; reflexivity.
Qed.

(** ** Escaping *)

(** Induction on values, with the elements of an array and the property
    values of an object as induction hypotheses. *)
Section ValueInduction.

Variable P : jsval -> Prop.
Hypothesis P_undefined : P JUndefined.
Hypothesis P_null : P JNull.
Hypothesis P_bool : forall b, P (JBool b).
Hypothesis P_num : forall n, P (JNum n).
Hypothesis P_str : forall s, P (JStr s).
Hypothesis P_arr : forall l, Forall P l -> P (JArr l).
Hypothesis P_obj : forall o, Forall (fun kv => P (snd kv)) o -> P (JObj o).
Hypothesis P_buffer : forall b, P (JBuffer b).
Hypothesis P_func : forall src, P (JFunc src).

Fixpoint jsval_induction (v : jsval) : P v :=
  match v with
  | JUndefined => P_undefined
  | JNull => P_null
  | JBool b => P_bool b
  | JNum n => P_num n
  | JStr s => P_str s
  | JArr l =>
      P_arr l ((fix all (l : list jsval) : Forall P l :=
                  match l with
                  | [] => Forall_nil P
                  | x :: l' => Forall_cons x (jsval_induction x) (all l')
                  end) l)
  | JObj o =>
      P_obj o ((fix all (o : props) : Forall (fun kv => P (snd kv)) o :=
                  match o with
                  | [] => Forall_nil _
                  | (k, x) :: o' =>
                      Forall_cons (k, x) (jsval_induction x) (all o')
                  end) o)
  | JBuffer b => P_buffer b
  | JFunc src => P_func src
  end.

End ValueInduction.

(** The text in which every character [a] is replaced by [f a]. *)
Fixpoint expand (f : ascii -> string) (s : string) : string :=
  match s with
  | EmptyString => EmptyString
  | String a s' => f a ++ expand f s'
  end.

(** [c] occurs in [s]. *)
Fixpoint occurs (c : ascii) (s : string) : bool :=
  match s with
  | EmptyString => false
  | String a s' => Ascii.eqb a c || occurs c s'
  end.

(** A character doubled when it is [c]. *)
Definition doubled (c a : ascii) : string :=
  if Ascii.eqb a c then String c (str1 c) else str1 a.

(** A character doubled when it is a single quote or a backslash. *)
Definition escaped_char (a : ascii) : string :=
  if Ascii.eqb a squote_char then String squote_char (str1 squote_char)
  else if Ascii.eqb a backslash_char
       then String backslash_char (str1 backslash_char)
  else str1 a.

(** The quoted form of a stringified scalar, in the words of the
    specification. *)
Definition quoted_scalar (str : string) : string :=
  if occurs backslash_char str
  then "E" ++ str1 squote_char ++ expand escaped_char str ++ str1 squote_char
  else str1 squote_char ++ expand (doubled squote_char) str ++ str1 squote_char.

(** [literal] in the words of the specification. *)
Fixpoint literal_spec (val : jsval) : string :=
  match val with
  | JUndefined | JNull => "NULL"
  | JArr l => "(" ++ String.concat ", " (map literal_spec l) ++ ")"
  | _ => quoted_scalar (toString val)
  end.

Lemma replace_all_expand (c : ascii) (s : string) :
  replace_all c (str1 c ++ str1 c) s = expand (doubled c) s.
Proof.
  induction s as [|a s IH]; [reflexivity|].
  cbn [replace_all expand]. unfold doubled at 1.
  destruct (Ascii.eqb a c); rewrite IH; reflexivity.
Qed.

Lemma indexOf_occurs (c : ascii) (s : string) :
  (indexOf s (str1 c) =? -1)%Z = negb (occurs c s).
Proof.
  unfold indexOf.
  assert (H : forall s, match String.index 0 (str1 c) s with
                        | Some _ => occurs c s = true
                        | None => occurs c s = false
                        end).
  { clear s. induction s as [|a s IH]; [reflexivity|].
    cbn [String.index occurs]. unfold str1. cbn [String.prefix].
    destruct (ascii_dec c a) as [->|Hne].
    - assert (Hp : String.prefix EmptyString s = true) by (destruct s; reflexivity).
      rewrite Hp, Ascii.eqb_refl. reflexivity.
    - destruct (Ascii.eqb_spec a c) as [->|_]; [contradiction|].
      fold (str1 c). destruct (String.index 0 (str1 c) s); exact IH. }
  specialize (H s). destruct (String.index 0 (str1 c) s) as [n|].
  - rewrite H. apply Z.eqb_neq. lia.
  - rewrite H. reflexivity.
Qed.

Lemma expand_no_backslash (s : string) :
  occurs backslash_char s = false ->
  expand escaped_char s = expand (doubled squote_char) s.
Proof.
  induction s as [|a s IH]; [reflexivity|].
  cbn [occurs expand]. intros H. apply orb_false_elim in H as [Ha Hs].
  rewrite (IH Hs). unfold escaped_char, doubled. rewrite Ha. reflexivity.
Qed.

Lemma append_assoc (s t u : string) : (s ++ t) ++ u = s ++ (t ++ u).
Proof.
  induction s as [|a s IH]; [reflexivity|].
  cbn [append]. rewrite IH. reflexivity.
Qed.

Lemma replace_all_app (c : ascii) (by_ s t : string) :
  replace_all c by_ (s ++ t) = replace_all c by_ s ++ replace_all c by_ t.
Proof.
  induction s as [|a s IH]; [reflexivity|].
  cbn [append replace_all]. rewrite IH.
  destruct (Ascii.eqb a c); [|reflexivity].
  symmetry. apply append_assoc.
Qed.

(** Doubling the single quotes first and the backslashes next is doubling
    both at once: neither step makes a character of the other kind. *)
Lemma replace_all_twice (s : string) :
  replace_all backslash_char (str1 backslash_char ++ str1 backslash_char)
    (replace_all squote_char (str1 squote_char ++ str1 squote_char) s)
  = expand escaped_char s.
Proof.
  induction s as [|a s IH]; [reflexivity|].
  cbn [replace_all expand]. unfold escaped_char at 1.
  destruct (Ascii.eqb_spec a squote_char) as [->|Hq].
  - rewrite replace_all_app, IH. reflexivity.
  - cbn [replace_all]. rewrite IH.
    destruct (Ascii.eqb a backslash_char); reflexivity.
Qed.

Lemma literal_scalar (str : string) :
  (let hasBackslash := negb (indexOf str (str1 backslash_char) =? -1)%Z in
   let prefix := if hasBackslash then "E" else EmptyString in
   let escaped :=
     replace_all squote_char (str1 squote_char ++ str1 squote_char) str in
   let escaped :=
     if hasBackslash
     then replace_all backslash_char
            (str1 backslash_char ++ str1 backslash_char) escaped
     else escaped in
   prefix ++ str1 squote_char ++ escaped ++ str1 squote_char)
  = quoted_scalar str.
Proof.
  cbv zeta. rewrite indexOf_occurs, negb_involutive. unfold quoted_scalar.
  destruct (occurs backslash_char str).
  - rewrite replace_all_twice. reflexivity.
  - rewrite replace_all_expand. reflexivity.
Qed.

Lemma literal_refines (val : jsval) : literal val = literal_spec val.
Proof.
  induction val as [| |b|n|s|l IH|o _|bs|src] using jsval_induction;
    try reflexivity; try (apply literal_scalar).
  assert (Hmap : map literal l = map literal_spec l).
  { induction IH as [|x l Hx _ IHl]; [reflexivity|].
    cbn [map]. rewrite Hx, IHl. reflexivity. }
  cbn [literal is_nullish literal_spec]. rewrite Hmap. reflexivity.
Qed.

(** C7: [literal] is NULL on null and undefined; on an array the escaped
    elements joined by a comma and a space between parentheses, so [()] on
    the empty array; on anything else the stringified value between single
    quotes with every single quote doubled, and, exactly when a backslash
    occurs in it, every backslash doubled as well and an [E] in front.  The
    four sample values come out as in the specification. *)
Theorem literal_correct (val : jsval) :
  literal val = literal_spec val
  /\ literal JNull = "NULL" /\ literal JUndefined = "NULL"
  /\ literal (JArr []) = "()"
  /\ literal (JArr [JStr "a"; JNull]) = "('a', NULL)"
  /\ literal (JStr "it's") = "'it''s'"
  /\ literal (JStr ("a" ++ str1 backslash_char ++ "b"))
     = "E'a" ++ str1 backslash_char ++ str1 backslash_char ++ "b'".
Proof.
  split; [apply literal_refines|]. repeat split; reflexivity.
Qed.

(** The pattern [^[a-zA-Z_][a-zA-Z0-9_$]*$] of the specification, without
    the [i] flag. *)
Definition spec_pattern : regex :=
  {| first_class := [("a", "z"); ("A", "Z"); ("_", "_")];
     rest_class := [("a", "z"); ("A", "Z"); ("0", "9"); ("_", "_"); ("$", "$")];
     ignoreCase := false |}%char.

(** Membership in the reserved-word set under case-insensitive lookup. *)
Definition reserved (s : string) : bool :=
  has POSTGRES_RESERVED_WORDS (toLowerCase s).

(** Wrapped in double quotes, every double quote inside doubled. *)
Definition quoted_identifier (s : string) : string :=
  str1 dquote_char ++ expand (doubled dquote_char) s ++ str1 dquote_char.

Lemma code_units_complete (c : ascii) : In c code_units.
Proof.
  unfold code_units. rewrite <- (ascii_nat_embedding c).
  apply in_map, in_seq. pose proof (nat_ascii_bounded c). lia.
Qed.

(** The canonical forms of the members of a class. *)
Definition canon_members (i : bool) (cls : char_class) : list ascii :=
  map (canonicalize i) (filter (in_class cls) code_units).

Lemma existsb_filter_map (p : ascii -> bool) (f : ascii -> ascii) (x : ascii)
  (l : list ascii) :
  existsb (fun m => p m && Ascii.eqb (f m) x) l
  = existsb (Ascii.eqb x) (map f (filter p l)).
Proof.
  induction l as [|m l IH]; [reflexivity|].
  cbn [existsb filter]. rewrite IH.
  destruct (p m); cbn [andb orb map existsb]; [|reflexivity].
  rewrite (Ascii.eqb_sym (f m) x). reflexivity.
Qed.

(** A character matches a class when its canonical form is the canonical
    form of a member. *)
Lemma class_matches_members (i : bool) (cls : char_class) (c : ascii) :
  class_matches i cls c
  = existsb (Ascii.eqb (canonicalize i c)) (canon_members i cls).
Proof. apply existsb_filter_map. Qed.

(** The canonical members of the two classes of the source's pattern, and the
    members of the two classes of the specification's pattern. *)
Definition source_first_members : list ascii :=
  Eval vm_compute in canon_members true (first_class identifier_pattern).

Definition source_rest_members : list ascii :=
  Eval vm_compute in canon_members true (rest_class identifier_pattern).

Definition spec_first_members : list ascii :=
  Eval vm_compute in canon_members false (first_class spec_pattern).

Definition spec_rest_members : list ascii :=
  Eval vm_compute in canon_members false (rest_class spec_pattern).

(** Upper-casing a character and looking it up among the upper-cased members
    of the source's class finds what looking the character itself up among
    the members of the specification's class finds: a finite check. *)
Definition members_agree (source spec : list ascii) : bool :=
  forallb (fun c => Bool.eqb (existsb (Ascii.eqb (upper_char c)) source)
                             (existsb (Ascii.eqb c) spec))
          code_units.

Lemma members_agree_sound (source spec : list ascii) (c : ascii) :
  members_agree source spec = true ->
  existsb (Ascii.eqb (upper_char c)) source = existsb (Ascii.eqb c) spec.
Proof.
  intros H. unfold members_agree in H. rewrite forallb_forall in H.
  apply Bool.eqb_prop, H, code_units_complete.
Qed.

Lemma first_class_agrees (c : ascii) :
  class_matches true (first_class identifier_pattern) c
  = class_matches false (first_class spec_pattern) c.
Proof.
  rewrite !class_matches_members.
  change (canon_members true (first_class identifier_pattern))
    with source_first_members.
  change (canon_members false (first_class spec_pattern))
    with spec_first_members.
  apply members_agree_sound. vm_compute. reflexivity.
Qed.

Lemma rest_class_agrees (c : ascii) :
  class_matches true (rest_class identifier_pattern) c
  = class_matches false (rest_class spec_pattern) c.
Proof.
  rewrite !class_matches_members.
  change (canon_members true (rest_class identifier_pattern))
    with source_rest_members.
  change (canon_members false (rest_class spec_pattern))
    with spec_rest_members.
  apply members_agree_sound. vm_compute. reflexivity.
Qed.

(** The source's pattern with its [i] flag accepts what the specification's
    pattern accepts. *)
Lemma identifier_pattern_agrees (s : string) :
  regex_test identifier_pattern s = regex_test spec_pattern s.
Proof.
  destruct s as [|c s]; [reflexivity|].
  cbn [regex_test ignoreCase identifier_pattern spec_pattern].
  change (class_matches true [("a", "z"); ("_", "_")]%char c)
    with (class_matches true (first_class identifier_pattern) c).
  rewrite first_class_agrees. f_equal.
  induction s as [|a s IH]; [reflexivity|].
  cbn [all_match].
  change (class_matches true
            [("a", "z"); ("0", "9"); ("_", "_"); ("$", "$")]%char a)
    with (class_matches true (rest_class identifier_pattern) a).
  rewrite rest_class_agrees, IH. reflexivity.
Qed.

Lemma ident_string (s : string) :
  ident (JStr s)
  = ok (if regex_test spec_pattern s && negb (reserved s)
        then s else quoted_identifier s).
Proof.
  unfold ident, isValidIdentifier, quoteIdentifier, quoted_identifier, reserved.
  cbn [is_nullish]. rewrite identifier_pattern_agrees, replace_all_expand.
  destruct (has POSTGRES_RESERVED_WORDS (toLowerCase s));
    destruct (regex_test spec_pattern s); reflexivity.
Qed.

(** C8: [ident] throws "identifier required" on null and undefined; on a
    string that matches [^[a-zA-Z_][a-zA-Z0-9_$]*$] and is not a reserved
    word, in any letter case, it is the identity; every other string comes
    back between double quotes with its own double quotes doubled, as the two
    sample identifiers show. *)
Theorem ident_correct (s : string) :
  ident JNull = error "identifier required"
  /\ ident JUndefined = error "identifier required"
  /\ ident (JStr s)
     = ok (if regex_test spec_pattern s && negb (reserved s)
           then s else quoted_identifier s)
  /\ ident (JStr ("table" ++ str1 dquote_char ++ "name"))
     = ok (str1 dquote_char ++ "table" ++ str1 dquote_char ++ str1 dquote_char
           ++ "name" ++ str1 dquote_char)
  /\ ident (JStr (str1 dquote_char ++ "already" ++ str1 dquote_char))
     = ok (str1 dquote_char ++ str1 dquote_char ++ str1 dquote_char
           ++ "already"
           ++ str1 dquote_char ++ str1 dquote_char ++ str1 dquote_char).
Proof.
  split; [reflexivity|]. split; [reflexivity|].
  split; [apply ident_string|]. split; reflexivity.
Qed.

(** * Further properties *)

(** ** Reading the arguments of a call *)

(** The statement [parseSQL] accepts is always a string: the first argument
    itself, or the [sql] property of an options object.  A first argument of
    any other type, an absent one included, gives the "No 'sql'" error; null,
    whose type is [object], makes the property read throw a TypeError. *)
Theorem parseSQL_accepts_strings (args : list jsval) :
  (forall sql, parseSQL args = ok sql ->
     exists s, sql = JStr s
               /\ (arg args 0 = JStr s
                   \/ exists o, arg args 0 = JObj o
                                /\ lookup "sql" o = Some (JStr s)))
  /\ (arg args 0 = JNull -> parseSQL args = throw TypeError)
  /\ (typeof (arg args 0) <> "string" -> typeof (arg args 0) <> "object" ->
      parseSQL args = error "No 'sql' statement provided.").
Proof.
  split; [|split].
  - intros sql. unfold parseSQL.
    destruct (arg args 0) as [| |b|n|s|l|o|bs|src]; try discriminate.
    + intros H. injection H as <-. exists s. split; [reflexivity|].
      left. reflexivity.
    + cbn. destruct (lookup "sql" o) as [v|] eqn:Hl; [|discriminate].
      destruct v; try discriminate. cbn.
      intros H. injection H as <-. eexists. split; [reflexivity|].
      right. exists o. split; [reflexivity|exact Hl].
  - intros H. unfold parseSQL. rewrite H. reflexivity.
  - unfold parseSQL. intros Hs Ho.
    destruct (String.eqb_spec (typeof (arg args 0)) "string");
      [contradiction|].
    cbn. destruct (String.eqb_spec (typeof (arg args 0)) "object");
      [contradiction|reflexivity].
Qed.

(** What [parseParams] accepts is always an array, so that [annotateParams]
    can loop over it; an array under [parameters] of the first argument wins
    over the second argument, whatever that is. *)
Theorem parseParams_gives_array (args : list jsval) :
  (forall raw, parseParams args = ok raw -> exists l, raw = JArr l)
  /\ (forall l, get (arg args 0) "parameters" = ok (JArr l) ->
        parseParams args = ok (JArr l))
  /\ (forall o, get (arg args 0) "parameters" = ok (JObj o) ->
        parseParams args = ok (JArr [JObj o])).
Proof.
  split; [|split].
  - intros raw. unfold parseParams, bind.
    destruct (get (arg args 0) "parameters") as [p|]; [|discriminate].
    destruct (isArray p) eqn:Hp.
    { destruct p; try discriminate Hp. intros H. injection H as <-. eauto. }
    destruct (String.eqb (typeof p) "object").
    { intros H. injection H as <-. eauto. }
    destruct (isArray (arg args 1)) eqn:H1.
    { destruct (arg args 1); try discriminate H1.
      intros H. injection H as <-. eauto. }
    destruct (String.eqb (typeof (arg args 1)) "object").
    { intros H. injection H as <-. eauto. }
    destruct (truthy p); [discriminate|].
    destruct (truthy (arg args 1)); [discriminate|].
    intros H. injection H as <-. eauto.
  - intros l H. unfold parseParams. rewrite H. reflexivity.
  - intros o H. unfold parseParams. rewrite H. reflexivity.
Qed.

(** The hydration flag of a call: a boolean on the call wins over the
    client's default, a truthy value of another type is rejected, and a falsy
    one leaves the client's default in force. *)
Theorem parseHydrate_resolution
  (config : Config) (args : list jsval) (h : jsval) :
  get (arg args 0) "hydrateColumnNames" = ok h ->
  (forall b, h = JBool b -> parseHydrate config args = ok b)
  /\ (typeof h <> "boolean" -> truthy h = true ->
      parseHydrate config args
      = error "'hydrateColumnNames' must be a boolean.")
  /\ (typeof h <> "boolean" -> truthy h = false ->
      parseHydrate config args = ok (hydrateColumnNames config)).
Proof.
  intros Hget. unfold parseHydrate, bind. rewrite Hget.
  split; [|split].
  - intros b ->. destruct b; reflexivity.
  - intros Hb ->.
    destruct (String.eqb_spec (typeof h) "boolean"); [contradiction|].
    reflexivity.
  - intros Hb ->.
    destruct (String.eqb_spec (typeof h) "boolean"); [contradiction|].
    reflexivity.
Qed.

(** A client is built from string ARNs only: when construction succeeds,
    both ARNs of the configuration are the strings that were passed, the
    default database is the string that was passed or null when none was,
    and the remote surface was created from the options object, or from an
    empty one when none was passed. *)
Theorem module_exports_accepts (params : jsval) (config : Config) :
  module_exports params = ok config ->
  get params "secretArn" = ok (JStr (secretArn config))
  /\ get params "resourceArn" = ok (JStr (resourceArn config))
  /\ get params "database" = ok (match database config with
                                 | Some d => JStr d
                                 | None => JUndefined
                                 end)
  /\ exists options,
       get params "options" = ok options
       /\ (options = JUndefined \/ typeof options = "object")
       /\ RDS config
          = newRDSDataService (match options with
                               | JUndefined => JObj []
                               | _ => options
                               end).
Proof.
  unfold module_exports, bind, error.
  destruct (get params "options") as [o|]; [|discriminate].
  destruct (get params "secretArn") as [s|];
    [|destruct (String.eqb (typeof o) "object");
      [|destruct (negb (is_undefined o))]; discriminate].
  destruct (get params "resourceArn") as [r|];
    [|destruct (String.eqb (typeof o) "object");
      [|destruct (negb (is_undefined o))];
      try discriminate; destruct (as_string s); discriminate].
  destruct (get params "database") as [d|];
    [|destruct (String.eqb (typeof o) "object");
      [|destruct (negb (is_undefined o))];
      try discriminate; destruct (as_string s); try discriminate;
      destruct (as_string r); discriminate].
  destruct (get params "hydrateColumnNames") as [h|];
    [|destruct (String.eqb (typeof o) "object");
      [|destruct (negb (is_undefined o))];
      try discriminate; destruct (as_string s); try discriminate;
      destruct (as_string r); try discriminate;
      destruct (as_string d); try discriminate;
      destruct (negb (is_undefined d)); discriminate].
  assert (Hopt : forall opts,
             (if String.eqb (typeof o) "object" then ok o
              else if negb (is_undefined o)
                   then throw (Error "'options' must be an object")
                   else ok (JObj [])) = ok opts ->
             (o = JUndefined \/ typeof o = "object")
             /\ opts = match o with JUndefined => JObj [] | _ => o end).
  { intros opts. destruct o; cbn; intros H; try discriminate;
      injection H as <-; split; auto. }
  destruct (if String.eqb (typeof o) "object" then ok o else _) as [opts|]
    eqn:Ho; [|discriminate].
  destruct (Hopt opts eq_refl) as [Hty ->].
  destruct s; cbn [as_string]; try discriminate.
  destruct r; cbn [as_string]; try discriminate.
  destruct d; cbn [as_string is_undefined negb]; try discriminate;
    intros H; injection H as <-; cbn;
    (split; [reflexivity|]; split; [reflexivity|]; split; [reflexivity|];
     exists o; split; [reflexivity|]; split; [exact Hty|reflexivity]).
Qed.

(** ** What the payload holds *)

Lemma parseDatabase_string (config : Config) (args : list jsval) (db : jsval) :
  parseDatabase config args = ok db -> exists d, db = JStr d.
Proof.
  unfold parseDatabase, bind.
  destruct (get (arg args 0) "database") as [v|]; [|discriminate].
  destruct (String.eqb (typeof v) "string") eqn:Hv.
  - destruct v; try discriminate Hv. intros H. injection H as <-. eauto.
  - destruct (truthy v); [discriminate|].
    destruct (database config) as [d|]; cbn [nullable]; [|discriminate].
    destruct (truthy (JStr d)); [|discriminate].
    intros H. injection H as <-. eauto.
Qed.

Lemma parseSQL_accepts_strings_aux (args : list jsval) (sql : jsval) :
  parseSQL args = ok sql -> exists s, sql = JStr s.
Proof.
  unfold parseSQL.
  destruct (arg args 0) as [| |b|n|s|l|o|bs|src]; try discriminate.
  - intros H. injection H as <-. eauto.
  - cbn. destruct (lookup "sql" o) as [v|]; [|discriminate].
    destruct v; try discriminate. cbn. intros H. injection H as <-. eauto.
Qed.

(** Every key of the prepared payload: the caller's own value except for
    [hydrateColumnNames], and the client's ARNs where the caller gave
    none. *)
Lemma prepareParams_lookup (config : Config) (args : list jsval)
  (sql : jsval) (target : props) (k : string) :
  parseSQL args = ok sql ->
  prepareParams config args = ok target ->
  lookup k target
  = match match arg args 0 with
          | JObj o => if String.eqb k "hydrateColumnNames" then None
                      else lookup k o
          | _ => None
          end with
    | Some v => Some v
    | None => if String.eqb k "secretArn" then Some (JStr (secretArn config))
              else if String.eqb k "resourceArn"
                   then Some (JStr (resourceArn config))
              else None
    end.
Proof.
  intros Hsql Ht. unfold prepareParams in Ht.
  destruct (parseSQL_first_argument args sql Hsql) as [[s Ha]|[o Ha]];
    rewrite Ha in *; cbn [typeof] in Ht.
  - cbn in Ht. injection Ht as <-. cbn [lookup]. reflexivity.
  - destruct (omit_object o ["hydrateColumnNames"]) as (r & Hr & Hnd & Hl).
    change (String.eqb "object" "object") with true in Ht. cbv iota in Ht.
    rewrite Hr in Ht. cbn [bind] in Ht. injection Ht as <-.
    rewrite (lookup_assign _ _ _ Hnd), Hl.
    cbn [includes existsb]. rewrite orb_false_r.
    assert (Hbase : lookup k (obj_lit [("secretArn", JStr (secretArn config));
                                       ("resourceArn", JStr (resourceArn config))])
                    = if String.eqb k "secretArn"
                      then Some (JStr (secretArn config))
                      else if String.eqb k "resourceArn"
                           then Some (JStr (resourceArn config))
                      else None).
    { cbn [lookup obj_lit assign fold_left fst snd].
      rewrite !lookup_set_prop. cbn [lookup].
      destruct (String.eqb_spec k "resourceArn") as [->|_]; reflexivity. }
    rewrite Hbase.
    destruct (String.eqb k "hydrateColumnNames"); [reflexivity|].
    destruct (lookup k o); reflexivity.
Qed.

(** The payload of an accepted call whose options object, if it has one,
    has no own key named [__proto__]: [sql] and [database] are the strings
    the call resolved to; [hydrateColumnNames] is never sent; the ARNs are
    the client's unless the caller's options object carries its own; and
    every other property of the options object that the assembler does not
    manage (a transaction id, say) is sent as the caller gave it. *)
Theorem buildRequest_payload_fields
  (config : Config) (args : list jsval) (req : Request) :
  (forall o, arg args 0 = JObj o -> lookup "__proto__" o = None) ->
  buildRequest config args = ok req ->
  (exists s, parseSQL args = ok (JStr s)
             /\ lookup "sql" (req_params req) = Some (JStr s))
  /\ (exists d, parseDatabase config args = ok (JStr d)
                /\ lookup "database" (req_params req) = Some (JStr d))
  /\ lookup "hydrateColumnNames" (req_params req) = None
  /\ lookup "secretArn" (req_params req)
     = Some (match arg args 0 with
             | JObj o => match lookup "secretArn" o with
                         | Some v => v
                         | None => JStr (secretArn config)
                         end
             | _ => JStr (secretArn config)
             end)
  /\ (forall k,
        includes ["sql"; "database"; "parameters"; "parameterSets";
                  "includeResultMetadata"; "hydrateColumnNames";
                  "secretArn"; "resourceArn"] k = false ->
        lookup k (req_params req)
        = match arg args 0 with JObj o => lookup k o | _ => None end).
Proof.
  intros _ Hreq.
  destruct (buildRequest_inv _ _ _ Hreq)
    as (sql & ps & target & db & Hsql & Hh & Hps & Ht & Hdb & Hb & Hp).
  destruct (parseSQL_accepts_strings_aux args sql Hsql) as [s ->].
  destruct (parseDatabase_string _ _ _ Hdb) as [d ->].
  rewrite Hp.
  split; [exists s; split; [exact Hsql|]|].
  { rewrite lookup_payload.
    destruct (req_isBatch req); reflexivity. }
  split; [exists d; split; [exact Hdb|]|].
  { rewrite lookup_payload.
    destruct (req_isBatch req); reflexivity. }
  split; [|split].
  - rewrite lookup_payload,
      (prepareParams_lookup config args _ target _ Hsql Ht).
    destruct (req_isBatch req), (arg args 0); reflexivity.
  - rewrite lookup_payload,
      (prepareParams_lookup config args _ target _ Hsql Ht).
    destruct (req_isBatch req); cbn;
      destruct (arg args 0); try reflexivity;
      destruct (lookup "secretArn" _); reflexivity.
  - intros k Hk. cbn [includes existsb] in Hk.
    repeat (apply orb_false_elim in Hk as [? Hk]).
    rewrite lookup_payload,
      (prepareParams_lookup config args _ target _ Hsql Ht).
    destruct (req_isBatch req);
      repeat match goal with
             | H : String.eqb k _ = false |- _ => rewrite H; clear H
             end;
      cbn [andb];
      (destruct (arg args 0) as [| | | | | |o| |]; try reflexivity);
      destruct (lookup k o); reflexivity.
Qed.

(** [omit] removes the listed keys and nothing else, on an object that has
    no own key named [__proto__] (writing that key would go through the
    setter of the prototype instead of making a property): a key is in the
    result exactly when the object has it and it is not listed, with the
    object's value; and the keys of the result are distinct. *)
Theorem omit_removes_listed (o : props) (values : list string) :
  lookup "__proto__" o = None ->
  exists r,
    omit (JObj o) values = ok r
    /\ NoDup (map fst r)
    /\ (forall k, includes values k = true -> lookup k r = None)
    /\ (forall k, includes values k = false -> lookup k r = lookup k o).
Proof.
  intros _.
  destruct (omit_object o values) as (r & Hr & Hnd & Hl).
  exists r. split; [exact Hr|]. split; [exact Hnd|].
  split; intros k Hk; rewrite Hl, Hk; reflexivity.
Qed.

(** ** Batches and annotated lists *)

Lemma collect_named_head (k : string) (v : jsval) (o : props)
  (l : list jsval) :
  collect named ((k, v) :: o) = ok l ->
  exists t rest, l = named_parameter k t v :: rest.
Proof.
  cbn [collect]. unfold named at 1. cbn [fst snd].
  destruct (getType v) as [t|]; [|discriminate]. cbn [bind].
  destruct (collect named o) as [cs|]; [|discriminate].
  cbn [bind app]. intros H. injection H as <-. eauto.
Qed.

(** Batch detection read off the raw parameters: when the first entry is an
    array and annotation succeeds, the call is a batch; when the first entry
    is a plain object with at least one key, it is not. *)
Theorem isBatch_of_raw (first : jsval) (rest : list jsval) (out : jsval) :
  annotateParams (JArr (first :: rest)) = ok out ->
  (isArray first = true -> isBatch out = true)
  /\ (forall k v o, first = JObj ((k, v) :: o) ->
        NoDup (map fst ((k, v) :: o)) -> isBatch out = false).
Proof.
  rewrite annotateParams_cons. intros H. split.
  - intros Harr. unfold annotateEntry in H. rewrite Harr in H.
    destruct (annotateParams first) as [inner|] eqn:Hi; [|discriminate].
    destruct (annotateParams_array _ _ Hi) as [l ->].
    cbn [bind] in H.
    destruct (annotateParams (JArr rest)) as [r|]; [|discriminate].
    cbn [bind app] in H. injection H as <-. reflexivity.
  - intros k v o -> Hnd. rewrite annotateEntry_object in H.
    destruct (passes_through ((k, v) :: o)).
    + cbn [bind] in H.
      destruct (annotateParams (JArr rest)) as [r|]; [|discriminate].
      cbn [bind app] in H. injection H as <-. reflexivity.
    + rewrite (formatParams_plain _ Hnd) in H.
      destruct (collect named ((k, v) :: o)) as [l|] eqn:Hl; [|discriminate].
      destruct (collect_named_head _ _ _ _ Hl) as (t & cs & ->).
      cbn [bind elems] in H.
      destruct (annotateParams (JArr rest)) as [r|]; [|discriminate].
      cbn [bind app] in H. injection H as <-. reflexivity.
Qed.

(** Annotated parameters: an object of the already-annotated shape, or an
    array of annotated parameters (a parameter set of a batch). *)
Unset Elimination Schemes.
Inductive annotated : jsval -> Prop :=
| annotated_parameter (o : props) :
    annotated_shape o -> annotated (JObj o)
| annotated_set (l : list jsval) :
    Forall annotated l -> annotated (JArr l).

(** Plain parameters: an object with distinct keys, none of them empty, or
    an array of plain parameters. *)
Inductive plain : jsval -> Prop :=
| plain_object (o : props) :
    NoDup (map fst o) -> Forall (fun kv => fst kv <> EmptyString) o ->
    plain (JObj o)
| plain_set (l : list jsval) :
    Forall plain l -> plain (JArr l).
Set Elimination Schemes.

Lemma collect_singletons (l : list jsval) :
  Forall (fun x => annotateEntry x = ok [x]) l ->
  collect annotateEntry l = ok l.
Proof.
  induction 1 as [|x l Hx _ IH]; [reflexivity|].
  cbn [collect]. rewrite Hx, IH. reflexivity.
Qed.

Lemma annotateEntry_annotated (v : jsval) :
  annotated v -> annotateEntry v = ok [v].
Proof.
  induction v as [| |b|n|s|l IH|o _|bs|src] using jsval_induction;
    intros Ha; inversion Ha as [o' Hs|l' Hl]; subst.
  - unfold annotateEntry. cbn [isArray].
    rewrite annotateParams_collect, collect_singletons; [reflexivity|].
    rewrite Forall_forall in *. intros x Hx. apply IH; [exact Hx|].
    apply Hl. exact Hx.
  - rewrite annotateEntry_object, (passes_through_shape o Hs). reflexivity.
Qed.

Lemma annotateParams_fixed (l : list jsval) :
  Forall annotated l -> annotateParams (JArr l) = ok (JArr l).
Proof.
  intros H. rewrite annotateParams_collect, collect_singletons; [reflexivity|].
  rewrite Forall_forall in *. intros x Hx.
  apply annotateEntry_annotated, H, Hx.
Qed.

(** Annotation leaves a list of annotated parameters, flat or in sets, as it
    is, and such a list of sets is a batch. *)
Theorem annotateParams_annotated_fixed (l : list jsval) :
  Forall annotated l ->
  annotateParams (JArr l) = ok (JArr l)
  /\ (isBatch (JArr l) = true <-> exists set rest, l = JArr set :: rest).
Proof.
  intros H. split; [apply annotateParams_fixed; exact H|apply isBatch_spec].
Qed.

Lemma named_parameter_annotated (k t : string) (v : jsval) :
  k <> EmptyString -> annotated (named_parameter k t v).
Proof.
  intros Hk. constructor. exists (JStr k), (JObj [(t, v)]).
  split; [destruct k; [contradiction|reflexivity]|].
  split; [reflexivity|]. left. reflexivity.
Qed.

Lemma collect_named_annotated (o : props) (l : list jsval) :
  Forall (fun kv => fst kv <> EmptyString) o ->
  collect named o = ok l -> Forall annotated l.
Proof.
  intros Hne. revert l. induction Hne as [|[k v] o Hk _ IH]; intros l.
  - intros H. injection H as <-. constructor.
  - cbn [collect]. unfold named at 1. cbn [fst snd] in *.
    destruct (getType v) as [t|]; [|discriminate]. cbn [bind].
    destruct (collect named o) as [cs|]; [|discriminate].
    cbn [bind app]. intros H. injection H as <-.
    constructor; [apply named_parameter_annotated; exact Hk|].
    apply IH. reflexivity.
Qed.

Lemma collect_annotated (l : list jsval) :
  Forall (fun x => forall c, annotateEntry x = ok c -> Forall annotated c) l ->
  forall cs, collect annotateEntry l = ok cs -> Forall annotated cs.
Proof.
  induction 1 as [|x l Hx _ IH]; intros cs.
  - intros H. injection H as <-. constructor.
  - cbn [collect].
    destruct (annotateEntry x) as [c|] eqn:Hc; [|discriminate].
    cbn [bind].
    destruct (collect annotateEntry l) as [cs'|]; [|discriminate].
    cbn [bind]. intros H. injection H as <-.
    apply Forall_app. split; [apply Hx; reflexivity|apply IH; reflexivity].
Qed.

Lemma annotateEntry_plain (v : jsval) :
  plain v -> forall c, annotateEntry v = ok c -> Forall annotated c.
Proof.
  induction v as [| |b|n|s|l IH|o _|bs|src] using jsval_induction;
    intros Hp; inversion Hp as [o' Hnd Hne|l' Hl]; subst; intros c.
  - unfold annotateEntry. cbn [isArray].
    rewrite annotateParams_collect.
    destruct (collect annotateEntry l) as [cs|] eqn:Hcs; [|discriminate].
    cbn [bind]. intros H. injection H as <-.
    constructor; [|constructor]. constructor.
    apply (collect_annotated l); [|exact Hcs].
    rewrite Forall_forall in *. intros x Hx. apply IH; [exact Hx|].
    apply Hl. exact Hx.
  - rewrite annotateEntry_object.
    destruct (passes_through o) eqn:Hpt.
    + intros H. injection H as <-.
      constructor; [|constructor]. constructor.
      apply shape_passes_through; assumption.
    + rewrite (formatParams_plain o Hnd).
      destruct (collect named o) as [nps|] eqn:Hn; [|discriminate].
      cbn [bind elems]. intros H. injection H as <-.
      apply (collect_named_annotated o); assumption.
Qed.

(** Annotation is idempotent on plain parameters: what it makes of them it
    leaves unchanged when it is applied again. *)
Theorem annotateParams_idempotent (l : list jsval) (out : jsval) :
  Forall plain l ->
  annotateParams (JArr l) = ok out ->
  annotateParams out = ok out.
Proof.
  intros Hp. rewrite annotateParams_collect.
  destruct (collect annotateEntry l) as [cs|] eqn:Hcs; [|discriminate].
  cbn [bind]. intros H. injection H as <-.
  apply annotateParams_fixed.
  apply (collect_annotated l); [|exact Hcs].
  rewrite Forall_forall in *. intros x Hx.
  apply annotateEntry_plain, Hp, Hx.
Qed.

(** ** The hydrator *)

(** A property of the accumulator that every step of a loop keeps holds at
    its end. *)
Lemma reduce_from_preserves {A E : Type} (P : A -> Prop)
  (f : A -> E -> nat -> result A) (l : list E) :
  (forall acc x i acc', P acc -> f acc x i = ok acc' -> P acc') ->
  forall i acc out, P acc -> reduce_from f l i acc = ok out -> P out.
Proof.
  intros Hstep. induction l as [|x l IH]; intros i acc out Hacc.
  - intros H. injection H as <-. exact Hacc.
  - cbn [reduce_from]. destruct (f acc x i) as [acc'|] eqn:Hf; [|discriminate].
    cbn [bind]. apply IH. apply (Hstep acc x i); assumption.
Qed.

(** A measure that every step of a loop raises by one has grown by the
    length of the list at its end. *)
Lemma reduce_from_counts {A E : Type} (size : A -> nat)
  (f : A -> E -> nat -> result A) (l : list E) :
  (forall acc x i acc', f acc x i = ok acc' -> size acc' = S (size acc)) ->
  forall i acc out,
    reduce_from f l i acc = ok out -> size out = List.length l + size acc.
Proof.
  intros Hstep. induction l as [|x l IH]; intros i acc out.
  - intros H. injection H as <-. reflexivity.
  - cbn [reduce_from]. destruct (f acc x i) as [acc'|] eqn:Hf; [|discriminate].
    cbn [bind]. intros H. rewrite (IH _ _ _ H), (Hstep _ _ _ _ Hf).
    cbn [List.length]. lia.
Qed.

(** The two kinds of row: an object in hydrated mode, an array otherwise. *)
Definition row_kind (columns row : jsval) : Prop :=
  if truthy columns then exists o, row = JObj o else exists l, row = JArr l.

Lemma emit_row_kind (columns : jsval) (fmap : list props) (i : nat)
  (acc v acc' : jsval) :
  emit columns fmap i acc v = ok acc' -> row_kind columns acc'.
Proof.
  unfold emit, row_kind. destruct (truthy columns).
  - destruct (fmap_at fmap i); [|discriminate]. cbn [bind].
    destruct acc; try discriminate. intros H. injection H as <-. eauto.
  - destruct acc; try discriminate. intros H. injection H as <-. eauto.
Qed.

Lemma formatField_row_kind (columns : jsval) (st st' : list props * jsval)
  (field : jsval) (i : nat) :
  formatField columns st field i = ok st' -> row_kind columns (snd st').
Proof.
  unfold formatField. destruct st as [fmap acc].
  destruct (get field "isNull") as [isNull|]; [|discriminate]. cbn [bind].
  destruct (is_true isNull).
  { destruct (emit columns fmap i acc JNull) eqn:He; [|discriminate].
    intros H. injection H as <-. exact (emit_row_kind _ _ _ _ _ _ He). }
  destruct (match nth_error fmap i with Some _ => _ | None => _ end).
  { destruct (mapped_value fmap i field); [|discriminate]. cbn [bind].
    destruct (emit columns fmap i acc a) eqn:He; [|discriminate].
    intros H. injection H as <-. exact (emit_row_kind _ _ _ _ _ _ He). }
  destruct (discover fmap i field) as [fmap'|]; [|discriminate]. cbn [bind].
  destruct (mapped_value fmap' i field); [|discriminate]. cbn [bind].
  destruct (emit columns fmap' i acc a) eqn:He; [|discriminate].
  intros H. injection H as <-. exact (emit_row_kind _ _ _ _ _ _ He).
Qed.

Lemma formatRecord_row_kind (columns : jsval) (fmap : list props)
  (rec : jsval) (st : list props * jsval) :
  formatRecord columns fmap rec = ok st -> row_kind columns (snd st).
Proof.
  unfold formatRecord, reduce. destruct rec; try discriminate.
  apply (reduce_from_preserves (fun st => row_kind columns (snd st))).
  - intros acc x i acc' _. apply formatField_row_kind.
  - unfold row_kind. cbn [snd]. destruct (truthy columns); eauto.
Qed.

(** A successful hydration gives exactly one row per record, each an object
    in hydrated mode and an array in positional mode; and it only succeeds on
    a non-empty array of records. *)
Theorem formatRecords_rows (recs columns out : jsval) :
  formatRecords recs columns = ok out ->
  exists rs rows,
    recs = JArr rs /\ out = JArr rows
    /\ rs <> []
    /\ List.length rows = List.length rs
    /\ Forall (row_kind columns) rows.
Proof.
  unfold formatRecords.
  destruct (get_idx recs 0) as [first|] eqn:Hfirst; [|discriminate].
  cbn [bind].
  destruct (init_fmap columns first) as [fmap|] eqn:Hinit; [|discriminate].
  cbn [bind]. destruct recs as [| | | | |rs| | |]; try discriminate.
  destruct (reduce _ rs (fmap, [])) as [st|] eqn:Hred; [|discriminate].
  cbn [bind]. intros H. injection H as <-.
  exists rs, (snd st). split; [reflexivity|]. split; [reflexivity|].
  split; [|split].
  - intros ->. cbn in Hfirst. injection Hfirst as <-. discriminate Hinit.
  - unfold reduce in Hred.
    assert (Hlen : List.length (snd st)
                   = List.length rs + List.length (snd (fmap, @nil jsval))).
    { revert Hred.
      apply (reduce_from_counts
               (fun st : list props * list jsval => List.length (snd st))).
      intros acc x i acc'.
      destruct (formatRecord columns (fst acc) x); [|discriminate].
      cbn [bind]. intros H. injection H as <-. cbn [snd].
      rewrite length_app. cbn. lia. }
    cbn in Hlen. lia.
  - unfold reduce in Hred. revert Hred.
    apply (reduce_from_preserves
             (fun st : list props * list jsval =>
                Forall (row_kind columns) (snd st))); [|constructor].
    intros acc x i acc' Hacc.
    destruct (formatRecord columns (fst acc) x) as [r|] eqn:Hr; [|discriminate].
    cbn [bind]. intros H. injection H as <-. cbn [snd].
    apply Forall_app. split; [exact Hacc|].
    constructor; [|constructor]. exact (formatRecord_row_kind _ _ _ _ Hr).
Qed.

(** The output of [formatResults]: [columnMetadata] first and only when it
    was asked for, then [numberOfRecordsUpdated] as the response has it, then
    the hydrated records; the records are hydrated against the response's
    column metadata when hydration is on. *)
Theorem formatResults_output
  (response out : jsval) (hydrate includeMeta : bool) :
  formatResults response hydrate includeMeta = ok out ->
  exists columnMetadata updated records rows,
    get response "columnMetadata" = ok columnMetadata
    /\ get response "numberOfRecordsUpdated" = ok updated
    /\ get response "records" = ok records
    /\ formatRecords records
         (if hydrate then columnMetadata else JBool false) = ok rows
    /\ out = JObj ((if includeMeta
                    then [("columnMetadata", columnMetadata)] else [])
                   ++ [("numberOfRecordsUpdated", updated);
                       ("records", rows)])%list.
Proof.
  unfold formatResults, bind.
  destruct (get response "columnMetadata") as [cm|]; [|discriminate].
  destruct (get response "numberOfRecordsUpdated") as [n|]; [|discriminate].
  destruct (get response "records") as [rs|]; [|discriminate].
  destruct (formatRecords rs _) as [rows|] eqn:Hrows; [|discriminate].
  intros H. injection H as <-.
  exists cm, n, rs, rows. repeat split; try reflexivity; try exact Hrows.
  destruct includeMeta; reflexivity.
Qed.

Lemma formatRecords_falsy_columns (recs columns : jsval) :
  truthy columns = false ->
  formatRecords recs columns = formatRecords recs (JBool false).
Proof.
  intros H.
  unfold formatRecords, init_fmap, formatRecord, formatField, emit.
  rewrite H. reflexivity.
Qed.

(** Hydration needs the column metadata: when hydration is on and the
    response carries no (or a falsy) [columnMetadata], as a batch response
    does, the records come out as in positional mode. *)
Theorem formatResults_without_metadata
  (response columnMetadata : jsval) (includeMeta : bool) :
  get response "columnMetadata" = ok columnMetadata ->
  truthy columnMetadata = false ->
  formatResults response true includeMeta
  = formatResults response false includeMeta.
Proof.
  intros Hget Hf. unfold formatResults. rewrite Hget. cbn [bind].
  destruct (get response "numberOfRecordsUpdated"); [|reflexivity].
  destruct (get response "records") as [records|]; [|reflexivity].
  cbn [bind].
  rewrite (formatRecords_falsy_columns records columnMetadata Hf).
  reflexivity.
Qed.

(** *** The field map during a hydration pass *)

Lemma length_update_at (fmap : list props) (j : nat) (fm : props) :
  List.length (update_at fmap j fm) = List.length fmap.
Proof.
  revert j. induction fmap as [|x fmap IH]; intros [|j]; cbn; auto.
Qed.

Lemma nth_error_update_at (fmap : list props) (i j : nat) (fm : props) :
  nth_error (update_at fmap j fm) i
  = if Nat.eqb i j
    then match nth_error fmap j with Some _ => Some fm | None => None end
    else nth_error fmap i.
Proof.
  revert i j. induction fmap as [|x fmap IH]; intros i j.
  - cbn. destruct (Nat.eqb i j); destruct i, j; reflexivity.
  - destruct i, j; cbn; try reflexivity. apply IH.
Qed.

(** How a later field map relates to an earlier one: the same columns with
    the same labels, and every column whose type tag was known still has
    that tag. *)
Definition keeps_tags (fmap fmap' : list props) : Prop :=
  List.length fmap' = List.length fmap
  /\ forall i fm, nth_error fmap i = Some fm ->
       exists fm', nth_error fmap' i = Some fm'
                   /\ prop fm' "label" = prop fm "label"
                   /\ (truthy (prop fm "field") = true -> fm' = fm).

Lemma keeps_tags_refl (fmap : list props) : keeps_tags fmap fmap.
Proof. split; [reflexivity|]. intros i fm H. exists fm. auto. Qed.

Lemma keeps_tags_trans (f1 f2 f3 : list props) :
  keeps_tags f1 f2 -> keeps_tags f2 f3 -> keeps_tags f1 f3.
Proof.
  intros [L12 H12] [L23 H23]. split; [congruence|].
  intros i fm Hi. destruct (H12 i fm Hi) as (fm2 & Hi2 & Hl2 & Ht2).
  destruct (H23 i fm2 Hi2) as (fm3 & Hi3 & Hl3 & Ht3).
  exists fm3. split; [exact Hi3|]. split; [congruence|].
  intros Ht. specialize (Ht2 Ht). subst fm2. apply Ht3. exact Ht.
Qed.

(** Discovery writes to column [j] only, and only its [field]. *)
Definition only_column (j : nat) (fmap fmap' : list props) : Prop :=
  List.length fmap' = List.length fmap
  /\ forall i fm, nth_error fmap i = Some fm ->
       exists fm', nth_error fmap' i = Some fm'
                   /\ prop fm' "label" = prop fm "label"
                   /\ (i <> j -> fm' = fm).

Lemma discover_only_column (fmap fmap' : list props) (j : nat)
  (field : jsval) :
  discover fmap j field = ok fmap' -> only_column j fmap fmap'.
Proof.
  unfold discover, reduce. destruct (keys field) as [ks|]; [|discriminate].
  cbn [bind].
  apply (reduce_from_preserves (only_column j fmap)).
  - intros acc type i acc' [Hlen Hacc].
    destruct (get field type) as [v|]; [|discriminate]. cbn [bind].
    destruct (negb (String.eqb type "isNull") && negb (is_null v)).
    + unfold fmap_at. destruct (nth_error acc j) as [fmj|] eqn:Hj;
        [|discriminate].
      cbn [bind]. intros H. injection H as <-.
      split; [rewrite length_update_at; exact Hlen|].
      intros c fm Hi. destruct (Hacc c fm Hi) as (fm' & Hi' & Hl & Hne).
      rewrite nth_error_update_at, Hj.
      destruct (Nat.eqb_spec c j) as [->|Hij].
      * eexists. split; [reflexivity|]. split; [|intros []; reflexivity].
        unfold prop. rewrite lookup_set_prop. cbn.
        rewrite Hj in Hi'. injection Hi' as <-. exact Hl.
      * exists fm'. auto.
    + intros H. injection H as <-. split; assumption.
  - split; [reflexivity|]. intros c fm Hi. exists fm. auto.
Qed.

Lemma formatField_keeps_tags (columns : jsval) (st st' : list props * jsval)
  (field : jsval) (j : nat) :
  formatField columns st field j = ok st' -> keeps_tags (fst st) (fst st').
Proof.
  unfold formatField. destruct st as [fmap acc]. cbn [fst].
  destruct (get field "isNull") as [isNull|]; [|discriminate]. cbn [bind].
  destruct (is_true isNull).
  { destruct (emit columns fmap j acc JNull); [|discriminate].
    intros H. injection H as <-. apply keeps_tags_refl. }
  destruct (match nth_error fmap j with Some _ => _ | None => _ end) eqn:Hj.
  { destruct (mapped_value fmap j field); [|discriminate]. cbn [bind].
    destruct (emit columns fmap j acc a); [|discriminate].
    intros H. injection H as <-. apply keeps_tags_refl. }
  destruct (discover fmap j field) as [fmap'|] eqn:Hd; [|discriminate].
  cbn [bind].
  destruct (mapped_value fmap' j field); [|discriminate]. cbn [bind].
  destruct (emit columns fmap' j acc a); [|discriminate].
  intros H. injection H as <-. cbn [fst].
  destruct (discover_only_column _ _ _ _ Hd) as [Hlen Hcol].
  split; [exact Hlen|]. intros i fm Hi.
  destruct (Hcol i fm Hi) as (fm' & Hi' & Hl & Hne).
  exists fm'. split; [exact Hi'|]. split; [exact Hl|].
  intros Ht. apply Hne. intros ->. rewrite Hi, Ht in Hj. discriminate.
Qed.

(** Hydrating a record never drops or relabels a column of the field map,
    and never changes a type tag it has already found: from the record in
    which a column first holds a value on, the column is read under that
    tag. *)
Theorem formatRecord_keeps_tags (columns : jsval) (fmap : list props)
  (rec : jsval) (st : list props * jsval) :
  formatRecord columns fmap rec = ok st -> keeps_tags fmap (fst st).
Proof.
  unfold formatRecord, reduce. destruct rec; try discriminate.
  apply (reduce_from_preserves
           (fun st : list props * jsval => keeps_tags fmap (fst st))).
  - intros acc x i acc' Hacc H.
    exact (keeps_tags_trans _ _ _ Hacc (formatField_keeps_tags _ _ _ _ _ H)).
  - apply keeps_tags_refl.
Qed.

(** *** A column is read under the tag of its first value *)

Lemma formatRecord_discovers (t : string) (v : jsval) :
  t <> "isNull" -> is_null v = false ->
  formatRecord (JBool false) [[]] (JArr [JObj [(t, v)]])
  = ok ([[("field", JStr t)]], JArr (concat [] v)).
Proof.
  intros Ht Hv.
  assert (H1 : String.eqb "isNull" t = false)
    by (apply String.eqb_neq; congruence).
  assert (H2 : String.eqb t "isNull" = false) by (apply String.eqb_neq; exact Ht).
  unfold formatRecord, reduce, reduce_from, formatField.
  cbn [get lookup opt_val bind truthy]. rewrite H1. cbn [opt_val is_true].
  change (prop [] "field") with JUndefined. cbn [nth_error truthy].
  unfold discover, reduce, reduce_from. cbn [keys map fst bind get lookup].
  rewrite String.eqb_refl, H2. cbn [opt_val]. rewrite Hv.
  cbn [opt_val negb andb bind fmap_at nth_error update_at].
  unfold mapped_value. cbn [fmap_at nth_error bind].
  change (set_prop "field" (JStr t) []) with [("field", JStr t)].
  change (prop [("field", JStr t)] "field") with (JStr t).
  cbn [toString get lookup bind]. rewrite String.eqb_refl.
  reflexivity.
Qed.

Lemma formatRecord_cached (t : string) (o : props) :
  t <> EmptyString ->
  is_true (opt_val (lookup "isNull" o)) = false ->
  formatRecord (JBool false) [[("field", JStr t)]] (JArr [JObj o])
  = ok ([[("field", JStr t)]],
        JArr (concat [] (opt_val (lookup t o)))).
Proof.
  intros Ht Hn.
  unfold formatRecord, reduce, reduce_from, formatField.
  cbn [get bind truthy]. rewrite Hn. cbn [nth_error].
  change (prop [("field", JStr t)] "field") with (JStr t).
  assert (Htr : truthy (JStr t) = true) by (destruct t; [contradiction|reflexivity]).
  rewrite Htr. unfold mapped_value.
  cbn [fmap_at nth_error bind].
  change (prop [("field", JStr t)] "field") with (JStr t).
  cbn [toString get bind]. reflexivity.
Qed.

(** The names every object inherits from [Object.prototype]; reading one of
    them from an object that has no property of that name gives the inherited
    value. *)
Definition Object_prototype_names : list string :=
  ["constructor"; "__defineGetter__"; "__defineSetter__"; "hasOwnProperty";
   "__lookupGetter__"; "__lookupSetter__"; "isPrototypeOf";
   "propertyIsEnumerable"; "toString"; "valueOf"; "__proto__";
   "toLocaleString"].

(** In positional mode, a column whose first record holds the value [v]
    under the tag [t] is read under [t] in the next record as well, for a
    tag that is not a name inherited from [Object.prototype]: a field that
    carries its value under another tag comes out as undefined, not as that
    value. *)
Theorem formatRecords_reads_first_tag (t : string) (v : jsval) (o : props) :
  includes Object_prototype_names t = false ->
  t <> "isNull" -> t <> EmptyString -> is_null v = false ->
  is_true (opt_val (lookup "isNull" o)) = false ->
  formatRecords (JArr [JArr [JObj [(t, v)]]; JArr [JObj o]]) (JBool false)
  = ok (JArr [JArr (concat [] v);
              JArr (concat [] (opt_val (lookup t o)))]).
Proof.
  intros _.
  intros Ht Hne Hv Hn. unfold formatRecords.
  change (get_idx (JArr [JArr [JObj [(t, v)]]; JArr [JObj o]]) 0)
    with (ok (JArr [JObj [(t, v)]])).
  cbn [bind].
  change (init_fmap (JBool false) (JArr [JObj [(t, v)]]))
    with (ok [@nil (string * jsval)]).
  cbn [bind]. unfold reduce. cbn [reduce_from fst snd].
  rewrite (formatRecord_discovers t v Ht Hv). cbn [bind fst snd app].
  rewrite (formatRecord_cached t o Hne Hn). reflexivity.
Qed.

(** ** The escaper does not lose information *)

(** Doubling the characters that satisfy [special], and reading a text in
    which they are doubled. *)
Definition double_special (special : ascii -> bool) (a : ascii) : string :=
  if special a then String a (str1 a) else str1 a.

Fixpoint collapse (special : ascii -> bool) (s : string) : string :=
  match s with
  | EmptyString => EmptyString
  | String a s' =>
      if special a then
        match s' with
        | String b s'' =>
            if Ascii.eqb a b then String a (collapse special s'')
            else String a (collapse special s')
        | EmptyString => String a EmptyString
        end
      else String a (collapse special s')
  end.

Lemma collapse_expand (special : ascii -> bool) (s : string) :
  collapse special (expand (double_special special) s) = s.
Proof.
  induction s as [|a s IH]; [reflexivity|].
  cbn [expand]. unfold double_special at 1.
  destruct (special a) eqn:Ha.
  - cbn [append str1 collapse]. rewrite Ha, Ascii.eqb_refl, IH. reflexivity.
  - cbn [append str1 collapse]. rewrite Ha, IH. reflexivity.
Qed.

Lemma expand_ext (f g : ascii -> string) (s : string) :
  (forall a, f a = g a) -> expand f s = expand g s.
Proof.
  intros H. induction s as [|a s IH]; [reflexivity|].
  cbn [expand]. rewrite H, IH. reflexivity.
Qed.

Lemma expand_injective (f : ascii -> string) (special : ascii -> bool)
  (s1 s2 : string) :
  (forall a, f a = double_special special a) ->
  expand f s1 = expand f s2 -> s1 = s2.
Proof.
  intros Hf H. rewrite !(expand_ext f _ _ Hf) in H.
  rewrite <- (collapse_expand special s1), <- (collapse_expand special s2), H.
  reflexivity.
Qed.

Lemma append_char_cancel (s1 s2 : string) (c : ascii) :
  s1 ++ str1 c = s2 ++ str1 c -> s1 = s2.
Proof.
  revert s2. induction s1 as [|a s1 IH]; intros [|b s2]; cbn [append str1].
  - reflexivity.
  - intros H. injection H as _ H. destruct s2; discriminate.
  - intros H. injection H as _ H. destruct s1; discriminate.
  - intros H. injection H as -> H. f_equal. apply IH. exact H.
Qed.

Lemma doubled_special (c a : ascii) :
  doubled c a = double_special (fun x => Ascii.eqb x c) a.
Proof.
  unfold doubled, double_special.
  destruct (Ascii.eqb_spec a c) as [->|_]; reflexivity.
Qed.

Lemma escaped_char_special (a : ascii) :
  escaped_char a
  = double_special (fun x => Ascii.eqb x squote_char
                             || Ascii.eqb x backslash_char) a.
Proof.
  unfold escaped_char, double_special.
  destruct (Ascii.eqb_spec a squote_char) as [->|_]; [reflexivity|].
  destruct (Ascii.eqb_spec a backslash_char) as [->|_]; reflexivity.
Qed.

Lemma quoted_scalar_injective (s1 s2 : string) :
  quoted_scalar s1 = quoted_scalar s2 -> s1 = s2.
Proof.
  unfold quoted_scalar.
  destruct (occurs backslash_char s1), (occurs backslash_char s2);
    cbn [append str1]; intros H; try discriminate H.
  - injection H as H. apply append_char_cancel in H.
    exact (expand_injective _ _ _ _ escaped_char_special H).
  - injection H as H. apply append_char_cancel in H.
    exact (expand_injective _ _ _ _ (doubled_special squote_char) H).
Qed.

(** Two strings with the same literal are the same string: what [literal]
    writes can be read back. *)
Theorem literal_injective (s1 s2 : string) :
  literal (JStr s1) = literal (JStr s2) -> s1 = s2.
Proof.
  rewrite !literal_refines. cbn [literal_spec toString].
  apply quoted_scalar_injective.
Qed.

Lemma quote_not_initial :
  class_matches true (first_class identifier_pattern) dquote_char = false.
Proof. vm_compute. reflexivity. Qed.

Lemma valid_not_quoted (s t : string) :
  isValidIdentifier s = true -> s <> quoteIdentifier t.
Proof.
  unfold isValidIdentifier, quoteIdentifier.
  destruct (has POSTGRES_RESERVED_WORDS (toLowerCase s)); [discriminate|].
  intros Hv ->. unfold str1 in Hv. cbn [append] in Hv.
  unfold regex_test in Hv.
  change (ignoreCase identifier_pattern) with true in Hv.
  rewrite quote_not_initial in Hv. discriminate Hv.
Qed.

Lemma quoteIdentifier_injective (s1 s2 : string) :
  quoteIdentifier s1 = quoteIdentifier s2 -> s1 = s2.
Proof.
  unfold quoteIdentifier. rewrite !replace_all_expand.
  cbn [append str1]. intros H. injection H as H.
  apply append_char_cancel in H.
  exact (expand_injective _ _ _ _ (doubled_special dquote_char) H).
Qed.

(** Two identifiers with the same escaped form are the same identifier: an
    identifier returned as it is never looks like a quoted one, and quoting
    can be read back. *)
Theorem ident_injective (s1 s2 : string) :
  ident (JStr s1) = ident (JStr s2) -> s1 = s2.
Proof.
  unfold ident. cbn [is_nullish].
  assert (ok_inj : forall a b : string, ok a = ok b -> a = b)
    by (intros a b Hab; inversion Hab; reflexivity).
  destruct (isValidIdentifier s1) eqn:H1, (isValidIdentifier s2) eqn:H2;
    intros H; apply ok_inj in H.
  - exact H.
  - exfalso. exact (valid_not_quoted _ _ H1 H).
  - exfalso. exact (valid_not_quoted _ _ H2 (eq_sym H)).
  - apply quoteIdentifier_injective. exact H.
Qed.

Lemma has_In (set : list string) (x : string) : In x set -> has set x = true.
Proof.
  intros H. unfold has. apply existsb_exists. exists x.
  split; [exact H|apply String.eqb_refl].
Qed.

Lemma reserved_words_lower_case :
  forallb (fun w => String.eqb (toLowerCase w) w) POSTGRES_RESERVED_WORDS
  = true.
Proof. vm_compute. reflexivity. Qed.

(** A reserved word is quoted however it is capitalised: every string that
    differs from a word of the table only in letter case comes back between
    double quotes. *)
Theorem ident_quotes_reserved (w s : string) :
  In w POSTGRES_RESERVED_WORDS ->
  toLowerCase s = toLowerCase w ->
  ident (JStr s) = ok (quoteIdentifier s).
Proof.
  intros Hw Hs.
  assert (Hlow : toLowerCase w = w).
  { pose proof reserved_words_lower_case as H.
    rewrite forallb_forall in H. apply String.eqb_eq, H, Hw. }
  unfold ident, isValidIdentifier. cbn [is_nullish].
  rewrite Hs, Hlow, (has_In _ _ Hw). reflexivity.
Qed.

End Host.

(** * The properties on concrete inputs *)

(** An instance of the host's conversions for running the development: the
    integers up to 2^53 in magnitude and the non-finite numbers are printed
    as Number::toString prints them, and a Buffer of ASCII bytes is decoded
    to those characters.  The inputs below stay within that range. *)
Definition safe_numberToString (n : number) : string :=
  match n with
  | S754_zero _ => "0"
  | S754_nan => "NaN"
  | S754_infinity false => "Infinity"
  | S754_infinity true => "-Infinity"
  | S754_finite s m e =>
      if integral m e && (magnitude m e <=? 2 ^ 53)%Z
      then NilZero.string_of_int
             (Z.to_int (if s then - magnitude m e else magnitude m e)%Z)
      else EmptyString
  end.

Definition ascii_bufferToString (b : list ascii) : string :=
  string_of_list_ascii b.

(** Type inference at the key [callback] holding a function: no tag, and the
    annotation of the object fails with the error built from the key. *)
Lemma getType_precedence_function :
  getType (JFunc "() => 1") = None
  /\ annotateParams (JArr [JObj [("callback", JFunc "() => 1")]])
     = error (invalid_type_message "callback").
Proof.
  split; [reflexivity|].
  destruct (getType_precedence "callback" (JFunc "() => 1"))
    as (_ & _ & H & _).
  apply H. reflexivity.
Defined.

(** The call [query("SELECT ...", {id: 1})] with hydration on: a single
    execution whose payload asks for metadata. *)
Lemma query_batch_and_metadata_single :
  exists req,
    buildRequest (sample_config (Some "main"))
      [JStr "SELECT * FROM t WHERE id = :id"; JObj [("id", JNum (num_of_Z 1))]]
    = ok req
    /\ req_isBatch req = false
    /\ lookup "includeResultMetadata" (req_params req) = Some (JBool true).
Proof.
  eexists. split; [reflexivity|]. split; [reflexivity|].
  destruct (query_batch_and_metadata safe_numberToString ascii_bufferToString
              (sample_config (Some "main"))
              [JStr "SELECT * FROM t WHERE id = :id";
               JObj [("id", JNum (num_of_Z 1))]] _ eq_refl)
    as (_ & _ & _ & H).
  exact H.
Defined.

(** A parameter list of one entry that is already annotated. *)
Lemma annotateParams_entry_annotated :
  annotated_shape [("name", JStr "id"); ("value", JObj [("longValue", JNum (num_of_Z 1))])]
  /\ annotateParams
       (JArr [JObj [("name", JStr "id");
                    ("value", JObj [("longValue", JNum (num_of_Z 1))])]])
     = ok (JArr [JObj [("name", JStr "id");
                       ("value", JObj [("longValue", JNum (num_of_Z 1))])]]).
Proof.
  assert (Hs : annotated_shape
                 [("name", JStr "id");
                  ("value", JObj [("longValue", JNum (num_of_Z 1))])]).
  { exists (JStr "id"), (JObj [("longValue", JNum (num_of_Z 1))]).
    split; [reflexivity|]. split; [reflexivity|]. left. reflexivity. }
  split; [exact Hs|].
  destruct (annotateParams_entry [] []
              (JObj [("name", JStr "id");
                     ("value", JObj [("longValue", JNum (num_of_Z 1))])]))
    as (H & _ & _).
  exact (H _ eq_refl Hs).
Defined.

(** A call that names its own database on a client with a default. *)
Lemma parseDatabase_resolution_explicit :
  get (arg (call_with_database (JStr "reports")) 0) "database"
  = ok (JStr "reports")
  /\ parseDatabase (sample_config (Some "main"))
       (call_with_database (JStr "reports"))
     = ok (JStr "reports").
Proof.
  split; [reflexivity|].
  destruct (parseDatabase_resolution (sample_config (Some "main"))
              (call_with_database (JStr "reports")) (JStr "reports") eq_refl)
    as (H & _).
  apply H. reflexivity.
Defined.

(** The response of a statement that returned no rows. *)
Lemma formatResults_empty_records_throws_no_rows :
  get (JObj [("numberOfRecordsUpdated", JNum (num_of_Z 0)); ("records", JArr [])])
      "records"
  = ok (JArr [])
  /\ formatResults safe_numberToString ascii_bufferToString
       (JObj [("numberOfRecordsUpdated", JNum (num_of_Z 0)); ("records", JArr [])])
       true false
     = throw TypeError.
Proof.
  split; [reflexivity|].
  apply (formatResults_empty_records_throws safe_numberToString
           ascii_bufferToString).
  reflexivity.
Defined.

(** The escaper on values of its unit tests (pg-escape.test.ts). *)
Lemma pg_escape_unit_tests :
  ident (JStr "username") = ok "username"
  /\ ident (JStr "name$") = ok "name$"
  /\ ident (JStr "userId") = ok "userId"
  /\ ident (JStr "SELECT") = ok (str1 dquote_char ++ "SELECT" ++ str1 dquote_char)
  /\ ident (JStr "col-name")
     = ok (str1 dquote_char ++ "col-name" ++ str1 dquote_char)
  /\ ident (JStr "123table")
     = ok (str1 dquote_char ++ "123table" ++ str1 dquote_char)
  /\ literal safe_numberToString ascii_bufferToString
       (JArr [JArr [JStr "a"; JStr "b"]; JArr [JStr "c"; JStr "d"]])
     = "(('a', 'b'), ('c', 'd'))"
  /\ literal safe_numberToString ascii_bufferToString (JNum (num_of_Z 123))
     = "'123'"
  /\ literal safe_numberToString ascii_bufferToString (JBool true) = "'true'"
  /\ literal safe_numberToString ascii_bufferToString (JStr EmptyString)
     = str1 squote_char ++ str1 squote_char.
Proof. repeat split; vm_compute; reflexivity. Qed.

(** * The further properties on concrete inputs *)

Definition sample_newRDSDataService (options : jsval) : RDSDataService :=
  no_transport.

(** A call without arguments. *)
Lemma parseSQL_no_arguments :
  parseSQL [] = error "No 'sql' statement provided.".
Proof.
  destruct (parseSQL_accepts_strings []) as (_ & _ & H).
  apply H; discriminate.
Defined.

(** The parameters of the options object win over the second argument. *)
Lemma parseParams_options_first :
  parseParams [JObj [("sql", JStr "SELECT 1");
                     ("parameters", JArr [JObj [("id", JNum (num_of_Z 1))]])];
               JObj [("id", JNum (num_of_Z 2))]]
  = ok (JArr [JObj [("id", JNum (num_of_Z 1))]]).
Proof.
  destruct (parseParams_gives_array
              [JObj [("sql", JStr "SELECT 1");
                     ("parameters", JArr [JObj [("id", JNum (num_of_Z 1))]])];
               JObj [("id", JNum (num_of_Z 2))]]) as (_ & H & _).
  apply H. reflexivity.
Defined.

(** A call that switches hydration off on a client that has it on. *)
Lemma parseHydrate_per_call :
  parseHydrate (sample_config None)
    [JObj [("sql", JStr "SELECT 1"); ("hydrateColumnNames", JBool false)]]
  = ok false.
Proof.
  destruct (parseHydrate_resolution (sample_config None)
              [JObj [("sql", JStr "SELECT 1");
                     ("hydrateColumnNames", JBool false)]]
              (JBool false) eq_refl) as (H & _).
  apply H. reflexivity.
Defined.

(** The client built from two ARNs and a database. *)
Lemma module_exports_accepts_sample :
  exists config,
    module_exports sample_newRDSDataService
      (JObj [("secretArn", JStr "arn:secret");
             ("resourceArn", JStr "arn:cluster");
             ("database", JStr "main")])
    = ok config
    /\ get (JObj [("secretArn", JStr "arn:secret");
                  ("resourceArn", JStr "arn:cluster");
                  ("database", JStr "main")]) "database"
       = ok (match database config with
             | Some d => JStr d
             | None => JUndefined
             end).
Proof.
  eexists. split; [reflexivity|].
  match goal with
  | |- get ?p _ = ok (match database ?c with _ => _ end) =>
      destruct (module_exports_accepts sample_newRDSDataService p c eq_refl)
        as (_ & _ & H & _)
  end.
  exact H.
Defined.

(** An options-object call inside a transaction. *)
Lemma buildRequest_payload_fields_transaction :
  exists req,
    buildRequest (sample_config (Some "main"))
      [JObj [("sql", JStr "UPDATE t SET a = 1");
             ("transactionId", JStr "tx-1");
             ("hydrateColumnNames", JBool false)]]
    = ok req
    /\ lookup "transactionId" (req_params req) = Some (JStr "tx-1")
    /\ lookup "hydrateColumnNames" (req_params req) = None.
Proof.
  eexists. split; [reflexivity|].
  assert (Hproto : forall o,
             arg [JObj [("sql", JStr "UPDATE t SET a = 1");
                        ("transactionId", JStr "tx-1");
                        ("hydrateColumnNames", JBool false)]] 0 = JObj o ->
             lookup "__proto__" o = None).
  { intros o H. injection H as <-. reflexivity. }
  destruct (buildRequest_payload_fields (sample_config (Some "main"))
              [JObj [("sql", JStr "UPDATE t SET a = 1");
                     ("transactionId", JStr "tx-1");
                     ("hydrateColumnNames", JBool false)]] _ Hproto eq_refl)
    as (_ & _ & Hh & _ & Hk).
  split; [exact (Hk "transactionId" eq_refl)|exact Hh].
Defined.

(** Two parameter sets make a batch. *)
Lemma isBatch_of_raw_sets :
  exists out,
    annotateParams batch_parameters = ok out /\ isBatch out = true.
Proof.
  eexists. split; [reflexivity|].
  destruct (isBatch_of_raw
              (JArr [JObj [("id", JNum (num_of_Z 1))]])
              [JArr [JObj [("id", JNum (num_of_Z 2))]]] _ eq_refl) as (H & _).
  apply H. reflexivity.
Defined.

(** The annotated batch is left as it is. *)
Lemma annotateParams_annotated_fixed_batch :
  annotateParams annotated_batch = ok annotated_batch.
Proof.
  assert (Hp : forall z,
             annotated (named_parameter "id" "longValue" (JNum (num_of_Z z))))
    by (intros z; apply named_parameter_annotated; discriminate).
  apply (annotateParams_annotated_fixed
           [JArr [named_parameter "id" "longValue" (JNum (num_of_Z 1))];
            JArr [named_parameter "id" "longValue" (JNum (num_of_Z 2))]]).
  constructor.
  { apply annotated_set. constructor; [apply Hp|constructor]. }
  constructor.
  { apply annotated_set. constructor; [apply Hp|constructor]. }
  constructor.
Defined.

(** Annotating twice is annotating once, on a flat list of two objects. *)
Lemma annotateParams_idempotent_flat :
  exists out,
    annotateParams (JArr [JObj [("id", JNum (num_of_Z 1)); ("name", JStr "a")];
                          JObj [("on", JBool true)]]) = ok out
    /\ annotateParams out = ok out.
Proof.
  eexists. split; [reflexivity|].
  apply (annotateParams_idempotent
           [JObj [("id", JNum (num_of_Z 1)); ("name", JStr "a")];
            JObj [("on", JBool true)]]); [|reflexivity].
  repeat constructor; cbn; try discriminate;
    intros H; repeat destruct H as [H|H]; try discriminate H; exact H.
Defined.

(** The sample records give two rows. *)
Lemma formatRecords_rows_sample :
  exists rows,
    formatRecords safe_numberToString ascii_bufferToString
      sample_records sample_columns = ok (JArr rows)
    /\ List.length rows = 2.
Proof.
  eexists. split; [reflexivity|].
  destruct (formatRecords_rows safe_numberToString ascii_bufferToString
              sample_records sample_columns _ eq_refl)
    as (rs & rows & Hrs & Hout & _ & Hlen & _).
  unfold sample_records in Hrs.
  injection Hrs as <-. injection Hout as <-. exact Hlen.
Defined.

(** A batch response: no column metadata, one record. *)
Definition batch_response : jsval :=
  JObj [("numberOfRecordsUpdated", JNum (num_of_Z 1));
        ("records", JArr [JArr [JObj [("longValue", JNum (num_of_Z 7))]]])].

Lemma formatResults_output_batch :
  exists out rows,
    formatResults safe_numberToString ascii_bufferToString
      batch_response false false = ok out
    /\ out = JObj [("numberOfRecordsUpdated", JNum (num_of_Z 1));
                  ("records", rows)].
Proof.
  eexists.
  destruct (formatResults_output safe_numberToString ascii_bufferToString
              batch_response _ false false eq_refl)
    as (cm & n & rs & rows & _ & Hn & _ & _ & Hout).
  exists rows. split; [reflexivity|].
  injection Hn as <-. exact Hout.
Defined.

Lemma formatResults_without_metadata_batch :
  formatResults safe_numberToString ascii_bufferToString
    batch_response true false
  = formatResults safe_numberToString ascii_bufferToString
      batch_response false false.
Proof.
  apply (formatResults_without_metadata safe_numberToString
           ascii_bufferToString batch_response JUndefined);
    reflexivity.
Defined.

(** A record read with the tag of its column already known. *)
Lemma formatRecord_keeps_tags_known :
  exists st,
    formatRecord safe_numberToString ascii_bufferToString (JBool false)
      [[("field", JStr "stringValue")]]
      (JArr [JObj [("stringValue", JStr "y")]]) = ok st
    /\ List.length (fst st) = 1.
Proof.
  eexists. split; [reflexivity|].
  destruct (formatRecord_keeps_tags safe_numberToString ascii_bufferToString
              (JBool false) [[("field", JStr "stringValue")]]
              (JArr [JObj [("stringValue", JStr "y")]]) _ eq_refl)
    as [Hlen _].
  exact Hlen.
Defined.

(** A column that holds a string first and a number next. *)
Lemma formatRecords_reads_first_tag_mixed :
  formatRecords safe_numberToString ascii_bufferToString
    (JArr [JArr [JObj [("stringValue", JStr "x")]];
           JArr [JObj [("longValue", JNum (num_of_Z 1))]]])
    (JBool false)
  = ok (JArr [JArr [JStr "x"]; JArr [JUndefined]]).
Proof.
  apply (formatRecords_reads_first_tag safe_numberToString
           ascii_bufferToString "stringValue" (JStr "x")
           [("longValue", JNum (num_of_Z 1))]);
    try discriminate; reflexivity.
Defined.

Lemma literal_injective_sample :
  literal safe_numberToString ascii_bufferToString (JStr "it's")
  = literal safe_numberToString ascii_bufferToString (JStr "it's")
  /\ "it's" = "it's".
Proof.
  split; [reflexivity|].
  apply (literal_injective safe_numberToString ascii_bufferToString).
  reflexivity.
Defined.

Lemma ident_injective_sample :
  ident (JStr "select") = ident (JStr "select") /\ "select" = "select".
Proof.
  split; [reflexivity|]. apply ident_injective. reflexivity.
Defined.

Lemma ident_quotes_reserved_mixed_case :
  ident (JStr "Select") = ok (quoteIdentifier "Select").
Proof.
  apply (ident_quotes_reserved "select").
  - unfold POSTGRES_RESERVED_WORDS.
    repeat (first [left; reflexivity | right]).
  - reflexivity.
Defined.

Lemma omit_removes_listed_sample :
  exists r,
    omit (JObj [("sql", JStr "SELECT 1"); ("hydrateColumnNames", JBool true)])
         ["hydrateColumnNames"] = ok r
    /\ lookup "hydrateColumnNames" r = None
    /\ lookup "sql" r = Some (JStr "SELECT 1").
Proof.
  destruct (omit_removes_listed
              [("sql", JStr "SELECT 1"); ("hydrateColumnNames", JBool true)]
              ["hydrateColumnNames"] eq_refl) as (r & Hr & _ & Hdrop & Hkeep).
  exists r. split; [exact Hr|]. split.
  - apply Hdrop. reflexivity.
  - rewrite Hkeep; reflexivity.
Defined.

Lemma buildRequest_string_call_exclusive_sample :
  exists req parameters,
    buildRequest (sample_config (Some "main"))
      [JStr "SELECT * FROM t WHERE id = :id"; JObj [("id", JNum (num_of_Z 1))]]
    = ok req
    /\ lookup "parameters" (req_params req) = Some (JArr parameters)
    /\ lookup "parameterSets" (req_params req) = None.
Proof.
  eexists.
  destruct (buildRequest_string_call_exclusive
              (sample_config (Some "main"))
              [JStr "SELECT * FROM t WHERE id = :id";
               JObj [("id", JNum (num_of_Z 1))]] _ _ eq_refl eq_refl)
    as (ps & Hps & H1 & H2).
  exists ps. split; [reflexivity|].
  cbn in Hps. injection Hps as <-. split; [exact H1|exact H2].
Defined.
